(** * ai-marketo-webhook: a shallow embedding of [src/index.js]

    The service receives a webhook describing a lead, asks a chat-completion
    endpoint for a marketing e-mail, and writes the result into the lead's
    Marketo record.  This file embeds the three helpers of [index.js]
    ([getMarketoAccessToken], [updateMarketoLead], [generateEmailWithAI]),
    the two prompt builders and the POST handler, and proves the properties
    the specification states about them.

    Conventions of the embedding.
    - A JavaScript string is the list of its UTF-16 code units.
    - A JavaScript number is a rational ([Q]) or NaN; arithmetic is exact.
      The program only adds, subtracts and multiplies timestamps and
      lifetimes, which are integers far below 2^53.
    - The built-ins of the JavaScript runtime that [index.js] calls but does
      not define ([JSON.parse], [JSON.stringify], [encodeURIComponent],
      number formatting and parsing, the messages of built-in exceptions)
      are fields of a [Runtime] record; [process.env] is a [ProcessEnv]
      record; the clock and the remote services are an [Upstream] record.
      The theorems hold for every runtime, environment and upstream.
    - Module-level mutable variables and the network are threaded through a
      state-and-exception monad; an exception keeps the state reached when
      it was thrown.  One request is processed at a time.
    - [console.log] and [console.error] are not modelled. *)

From Stdlib Require Import List ZArith QArith Bool Lia Lqa String Ascii.
From Stdlib Require Import Numbers.DecimalString.
Import ListNotations.

Set Implicit Arguments.
Set Warnings "-register-all".
Local Open Scope Z_scope.

(* ================================================================= *)
(** * JavaScript strings *)

Module JsString.

(** A UTF-16 code unit. *)
Definition unit16 := N.

Definition jsstring := list unit16.

(** Decoding of the UTF-8 bytes of a source literal into UTF-16 code
    units, so that the literals of [index.js] can be written as they are
    in the source file. *)
Fixpoint utf16_of_utf8 (bs : list N) : jsstring :=
  match bs with
  | [] => []
  | b0 :: r0 =>
    if (b0 <? 128)%N then b0 :: utf16_of_utf8 r0
    else
      match r0 with
      | [] => [b0]
      | b1 :: r1 =>
        if (b0 <? 224)%N
        then ((b0 mod 32) * 64 + b1 mod 64)%N :: utf16_of_utf8 r1
        else
          match r1 with
          | [] => [b0; b1]
          | b2 :: r2 =>
            if (b0 <? 240)%N
            then ((b0 mod 16) * 4096 + (b1 mod 64) * 64 + b2 mod 64)%N
                   :: utf16_of_utf8 r2
            else
              match r2 with
              | [] => [b0; b1; b2]
              | b3 :: r3 =>
                let cp := ((b0 mod 8) * 262144 + (b1 mod 64) * 4096
                           + (b2 mod 64) * 64 + b3 mod 64)%N in
                let v := (cp - 65536)%N in
                (55296 + v / 1024)%N :: (56320 + v mod 1024)%N
                  :: utf16_of_utf8 r3
              end
          end
      end
  end.

Definition str (s : string) : jsstring :=
  utf16_of_utf8 (map N_of_ascii (list_ascii_of_string s)).

Definition eqb (a b : jsstring) : bool :=
  if list_eq_dec N.eq_dec a b then true else false.

(** Named code units. *)
Definition lbrace : unit16 := 123%N.
Definition rbrace : unit16 := 125%N.
Definition backtick : unit16 := 96%N.
Definition dquote : unit16 := 34%N.
Definition newline : unit16 := 10%N.

(** [s] between double quotes. *)
Definition quoted (s : jsstring) : jsstring := dquote :: s ++ [dquote].

(** ECMAScript WhiteSpace and LineTerminator code units: the characters
    removed by [String.prototype.trim] and matched by the regular
    expression class [\s]. *)
Definition isWhiteSpace (c : unit16) : bool :=
  existsb (N.eqb c)
    [9; 10; 11; 12; 13; 32; 160; 5760; 8232; 8233; 8239; 8287; 12288; 65279]%N
  || ((8192 <=? c) && (c <=? 8202))%N.

(** The regular expression class [[a-zA-Z]]. *)
Definition isAsciiLetter (c : unit16) : bool :=
  ((97 <=? c) && (c <=? 122) || (65 <=? c) && (c <=? 90))%N.

Fixpoint dropWhile (p : unit16 -> bool) (s : jsstring) : jsstring :=
  match s with
  | [] => []
  | c :: r => if p c then dropWhile p r else s
  end.

Definition trimStart (s : jsstring) : jsstring := dropWhile isWhiteSpace s.

Definition trimEnd (s : jsstring) : jsstring :=
  rev (dropWhile isWhiteSpace (rev s)).

(** [s.trim()] *)
Definition trim (s : jsstring) : jsstring := trimEnd (trimStart s).

(** [s.startsWith(p)] *)
Fixpoint startsWith (s p : jsstring) {struct p} : bool :=
  match p with
  | [] => true
  | x :: p' =>
    match s with
    | [] => false
    | y :: s' => (x =? y)%N && startsWith s' p'
    end
  end.

(** [s.endsWith(p)] *)
Definition endsWith (s p : jsstring) : bool := startsWith (rev s) (rev p).

(** [s.indexOf(c)] for a one-character search string [c]: the index of
    the first occurrence, or -1. *)
Fixpoint indexOf_from (s : jsstring) (c : unit16) (i : Z) : Z :=
  match s with
  | [] => -1
  | x :: r => if (x =? c)%N then i else indexOf_from r c (i + 1)
  end.

Definition indexOf (s : jsstring) (c : unit16) : Z := indexOf_from s c 0.

(** [s.lastIndexOf(c)] for a one-character search string [c]: the index
    of the last occurrence, or -1. *)
Fixpoint lastIndexOf_from (s : jsstring) (c : unit16) (i acc : Z) : Z :=
  match s with
  | [] => acc
  | x :: r => lastIndexOf_from r c (i + 1) (if (x =? c)%N then i else acc)
  end.

Definition lastIndexOf (s : jsstring) (c : unit16) : Z :=
  lastIndexOf_from s c 0 (-1).

(** [s.slice(a, b)], with the relative-index rules of the language:
    a negative index counts from the end, both are clamped to the
    string, and an empty or inverted span gives the empty string. *)
Definition slice (s : jsstring) (a b : Z) : jsstring :=
  let len := Z.of_nat (List.length s) in
  let from := if a <? 0 then Z.max (len + a) 0 else Z.min a len in
  let to := if b <? 0 then Z.max (len + b) 0 else Z.min b len in
  firstn (Z.to_nat (to - from)) (skipn (Z.to_nat from) s).

Definition fence : jsstring := [backtick; backtick; backtick].

(** [s.replace(/^```[a-zA-Z]*\s*/, '')]: the pattern is anchored at the
    start of the string and both quantifiers are greedy with nothing
    after them, so it matches exactly when [s] starts with three
    backticks, and then consumes the longest run of letters followed by
    the longest run of white space. *)
Definition replace_opening_fence (s : jsstring) : jsstring :=
  match s with
  | 96%N :: 96%N :: 96%N :: r =>
    dropWhile isWhiteSpace (dropWhile isAsciiLetter r)
  | _ => s
  end.

(** [s.replace(/```$/, '')]: without the [m] flag [$] matches only at
    the very end of the string, so the pattern matches exactly when [s]
    ends with three backticks, which are removed. *)
Definition replace_closing_fence (s : jsstring) : jsstring :=
  if endsWith s fence then firstn (List.length s - 3) s else s.

(** [parts.join(sep)] on strings. *)
Fixpoint join (sep : jsstring) (parts : list jsstring) : jsstring :=
  match parts with
  | [] => []
  | [p] => p
  | p :: rest => p ++ sep ++ join sep rest
  end.

End JsString.
Import JsString.

(* ================================================================= *)
(** * JavaScript values *)

(** A JavaScript number: a rational, or NaN. *)
Inductive number : Type :=
| Num (q : Q)
| NaN.

Definition js_add (a b : number) : number :=
  match a, b with Num x, Num y => Num (x + y) | _, _ => NaN end.

Definition js_sub (a b : number) : number :=
  match a, b with Num x, Num y => Num (x - y) | _, _ => NaN end.

Definition js_mul (a b : number) : number :=
  match a, b with Num x, Num y => Num (x * y) | _, _ => NaN end.

(** [a < b]; a comparison with NaN is false. *)
Definition js_lt (a b : number) : bool :=
  match a, b with
  | Num x, Num y => negb (Qle_bool y x)
  | _, _ => false
  end.


Definition of_Z (z : Z) : number := Num (inject_Z z).

(** The values that [JSON.parse] produces, and [undefined].  An object is
    the list of its own properties in insertion order, one binding per
    key. *)
Inductive JSValue : Type :=
| JUndefined
| JNull
| JBool (b : bool)
| JNum (q : Q)
| JStr (s : jsstring)
| JArr (elems : list JSValue)
| JObj (props : list (jsstring * JSValue)).

Definition properties := list (jsstring * JSValue).

(** ToBoolean *)
Definition truthy (v : JSValue) : bool :=
  match v with
  | JUndefined | JNull => false
  | JBool b => b
  | JNum q => negb (Qeq_bool q 0)
  | JStr s => match s with [] => false | _ => true end
  | JArr _ | JObj _ => true
  end.

(** [a || b] and [a && b] on values. *)
Definition js_or (a b : JSValue) : JSValue := if truthy a then a else b.
Definition js_and (a b : JSValue) : JSValue := if truthy a then b else a.

Fixpoint lookup (ps : properties) (k : jsstring) : option JSValue :=
  match ps with
  | [] => None
  | (k', v) :: r => if JsString.eqb k' k then Some v else lookup r k
  end.

(** Assignment of a property: an existing key keeps its position. *)
Fixpoint assign (ps : properties) (k : jsstring) (v : JSValue) : properties :=
  match ps with
  | [] => [(k, v)]
  | (k', v') :: r =>
    if JsString.eqb k' k then (k', v) :: r else (k', v') :: assign r k v
  end.

(** [{ ...target, ...source }] *)
Definition spread (target source : properties) : properties :=
  fold_left (fun acc kv => assign acc (fst kv) (snd kv)) source target.

(** [v.k] for a value [v] that is neither [null] nor [undefined] and a
    name [k] that the prototypes do not define.  The names that
    [index.js] reads this way are [access_token], [expires_in], [errors],
    [length], [choices], [message], [content], [subject], [preheader],
    [htmlBody] and the seven request fields; of these only [length] is
    defined by the language, on strings and arrays. *)
Definition get_prop (v : JSValue) (k : jsstring) : JSValue :=
  match v with
  | JObj ps => match lookup ps k with Some x => x | None => JUndefined end
  | JArr l =>
    if JsString.eqb k (str "length")
    then JNum (inject_Z (Z.of_nat (List.length l))) else JUndefined
  | JStr s =>
    if JsString.eqb k (str "length")
    then JNum (inject_Z (Z.of_nat (List.length s))) else JUndefined
  | _ => JUndefined
  end.

(** [v[0]] for a value [v] that is neither [null] nor [undefined]. *)
Definition get_index0 (v : JSValue) : JSValue :=
  match v with
  | JObj ps => match lookup ps (str "0") with Some x => x | None => JUndefined end
  | JArr l => match l with x :: _ => x | [] => JUndefined end
  | JStr s => match s with c :: _ => JStr [c] | [] => JUndefined end
  | _ => JUndefined
  end.

Definition nullish (v : JSValue) : bool :=
  match v with JUndefined | JNull => true | _ => false end.

(* ================================================================= *)
(** * Exceptions *)

(** The exceptions thrown by the language and its library rather than by
    a [throw] of [index.js], with what they were thrown on. *)
Inductive fault : Type :=
| ReadOfNullish (base : JSValue) (prop : jsstring)   (* TypeError *)
| NotAFunction (base : JSValue) (prop : jsstring)    (* TypeError *)
| NotPrimitive (v : JSValue)                         (* TypeError *)
| BadJSON (text : jsstring)                          (* SyntaxError *)
| FetchFailed (url : jsstring).                      (* TypeError *)

Inductive exn : Type :=
| Error (message : jsstring)   (* [throw new Error(message)] *)
| Builtin (f : fault).

Definition result (A : Type) : Type := (exn + A)%type.

Definition rbind {A B} (r : result A) (k : A -> result B) : result B :=
  match r with inl e => inl e | inr a => k a end.

(** [v.k], throwing when [v] is [null] or [undefined]. *)
Definition member (v : JSValue) (k : jsstring) : result JSValue :=
  if nullish v then inl (Builtin (ReadOfNullish v k)) else inr (get_prop v k).

(** [v[0]], throwing when [v] is [null] or [undefined]. *)
Definition member0 (v : JSValue) : result JSValue :=
  if nullish v then inl (Builtin (ReadOfNullish v (str "0")))
  else inr (get_index0 v).

(* ================================================================= *)
(** * The runtime, the environment and the outside world *)

Record Runtime : Type := {
  (** [JSON.parse(text)]; [None] is a SyntaxError. *)
  JSON_parse : jsstring -> option JSValue;
  (** [JSON.stringify(value)] *)
  JSON_stringify : JSValue -> jsstring;
  (** [encodeURIComponent(s)]; it throws only on a lone surrogate, which
      a string of [process.env] cannot contain. *)
  encodeURIComponent : jsstring -> jsstring;
  (** Number to string and string to number conversions. *)
  NumberToString : Q -> jsstring;
  StringToNumber : jsstring -> number;
  (** Whether [Object.prototype] has a property of that name (all of
      them are functions or objects, hence truthy). *)
  inObjectPrototype : jsstring -> bool;
  (** The [message] of a built-in exception. *)
  fault_message : fault -> jsstring
}.

(** The variables [index.js] reads from [process.env]; [None] is
    [undefined]. *)
Record ProcessEnv : Type := {
  OPENAI_API_KEY : option jsstring;
  MARKETO_BASE_URL : option jsstring;
  MARKETO_CLIENT_ID : option jsstring;
  MARKETO_CLIENT_SECRET : option jsstring;
  WEBHOOK_SECRET : option jsstring
}.

(** An outgoing [fetch] call. *)
Record Request : Type := {
  url : jsstring;
  method : jsstring;
  headers : list (jsstring * jsstring);
  body : option jsstring
}.

Record Response : Type := {
  status : Z;
  payload : jsstring
}.

(** [res.ok] *)
Definition ok (res : Response) : bool :=
  (200 <=? status res) && (status res <=? 299).

(** The clock and the remote services.  Both may depend on the requests
    sent so far (most recent first). *)
Record Upstream : Type := {
  (** [Date.now()] *)
  Date_now : list Request -> Z;
  (** What a [fetch] resolves to; [None] when it rejects. *)
  respond : list Request -> Request -> option Response
}.

(* ================================================================= *)
(** * Conversions *)

Section Conversions.

Variable rt : Runtime.

(** ToString.  A plain object converts through [Object.prototype.toString]
    unless it has an own [toString] property, which (being a JSON value)
    is not callable; then no primitive is obtained, because
    [Object.prototype.valueOf] returns the object itself or is shadowed in
    the same way.  An array converts through [join]. *)
Fixpoint ToString (v : JSValue) : result jsstring :=
  match v with
  | JUndefined => inr (str "undefined")
  | JNull => inr (str "null")
  | JBool true => inr (str "true")
  | JBool false => inr (str "false")
  | JNum q => inr (NumberToString rt q)
  | JStr s => inr s
  | JArr l =>
    (fix elements (l : list JSValue) : result jsstring :=
       match l with
       | [] => inr []
       | x :: r =>
         rbind (match x with
                | JUndefined | JNull => inr []
                | _ => ToString x
                end)
               (fun sx =>
                  match r with
                  | [] => inr sx
                  | _ :: _ =>
                    rbind (elements r) (fun sr => inr (sx ++ str "," ++ sr))
                  end)
       end) l
  | JObj ps =>
    match lookup ps (str "toString") with
    | Some _ => inl (Builtin (NotPrimitive v))
    | None => inr (str "[object Object]")
    end
  end.

(** ToNumber *)
Definition ToNumber (v : JSValue) : result number :=
  match v with
  | JUndefined => inr NaN
  | JNull => inr (Num 0)
  | JBool true => inr (Num 1)
  | JBool false => inr (Num 0)
  | JNum q => inr (Num q)
  | JStr s => inr (StringToNumber rt s)
  | JArr _ | JObj _ => rbind (ToString v) (fun s => inr (StringToNumber rt s))
  end.

(** [err.message] *)
Definition message_of (e : exn) : jsstring :=
  match e with
  | Error m => m
  | Builtin f => fault_message rt f
  end.

End Conversions.

(** [`${x}`] and [encodeURIComponent(x)] applied to a variable of
    [process.env]. *)
Definition env_text (x : option jsstring) : jsstring :=
  match x with Some s => s | None => str "undefined" end.

(* ================================================================= *)
(** * Module state and the monad of the asynchronous functions *)

(** The two module-level variables of [index.js], and the requests sent so
    far, most recent first. *)
Record State : Type := {
  marketoToken : JSValue;
  marketoTokenExpiresAt : number;
  sent : list Request
}.

(** The state when the module has just been loaded. *)
Definition initial_state : State :=
  {| marketoToken := JNull;
     marketoTokenExpiresAt := Num 0;
     sent := [] |}.

Definition M (A : Type) : Type := State -> result A * State.

Definition ret {A} (a : A) : M A := fun st => (inr a, st).

Definition throw {A} (e : exn) : M A := fun st => (inl e, st).

Definition bind {A B} (m : M A) (k : A -> M B) : M B :=
  fun st =>
    match m st with
    | (inl e, st') => (inl e, st')
    | (inr a, st') => k a st'
    end.

Definition lift {A} (r : result A) : M A := fun st => (r, st).

Declare Scope js_scope.
Delimit Scope js_scope with js.
Notation "x <- m ;; k" := (bind m (fun x => k))
  (at level 100, m at next level, right associativity) : js_scope.
Notation "m ;;; k" := (bind m (fun _ => k))
  (at level 100, right associativity) : js_scope.
Local Open Scope js_scope.

Definition set_marketoToken (v : JSValue) : M unit :=
  fun st =>
    (inr tt, {| marketoToken := v;
                marketoTokenExpiresAt := marketoTokenExpiresAt st;
                sent := sent st |}).

Definition set_marketoTokenExpiresAt (n : number) : M unit :=
  fun st =>
    (inr tt, {| marketoToken := marketoToken st;
                marketoTokenExpiresAt := n;
                sent := sent st |}).

Definition get_state : M State := fun st => (inr st, st).

(* ================================================================= *)
(** * The program *)

(** An entry of [BASE_DATA]. *)
Record BaseContent : Type := {
  productName : jsstring;
  coreBenefits : list jsstring;
  primaryCTA : jsstring;
  ctaUrl : jsstring
}.

Definition VC_BASE_V1 : BaseContent :=
  {| productName := str "Voice Cloud";
     coreBenefits :=
       [ str "Altijd bereikbaar, ook als je niet op kantoor bent";
         str "Eenvoudige bediening via app en web";
         str "Schaalbaar per medewerker, groei mee met je zaak" ];
     primaryCTA := str "Plan een gratis demo";
     ctaUrl := str "https://www2.telenet.be/business/nl/voice-cloud/demo" |}.

(** What [BASE_DATA[key]] evaluates to when it is truthy: the own entry,
    or a member inherited from [Object.prototype], which has none of the
    fields of an entry. *)
Inductive base_entry : Type :=
| OwnEntry (b : BaseContent)
| PrototypeMember.

(** The lines of a multi-line literal. *)
Definition lines (ls : list jsstring) : jsstring := join [newline] ls.

(** The arguments of [generateEmailWithAI] and of [buildUserPrompt]. *)
Record LeadArgs : Type := {
  sector : JSValue;
  employeeCount : JSValue;
  jobTitle : JSValue;
  language : JSValue;
  baseDataId : JSValue
}.

(** A default value of a parameter or of a destructuring pattern: it
    applies to [undefined] only. *)
Definition default_to (d v : JSValue) : JSValue :=
  match v with JUndefined => d | _ => v end.

Definition set_language (a : LeadArgs) (l : JSValue) : LeadArgs :=
  {| sector := sector a; employeeCount := employeeCount a;
     jobTitle := jobTitle a; language := l; baseDataId := baseDataId a |}.

(** An incoming request, after [express.json()], and the reply sent. *)
Record WebhookRequest : Type := {
  req_headers : list (jsstring * jsstring);
  req_body : JSValue
}.

Record Reply : Type := {
  reply_status : Z;
  reply_json : JSValue
}.

Definition header (hs : list (jsstring * jsstring)) (k : jsstring)
  : option jsstring :=
  match find (fun kv => JsString.eqb (fst kv) k) hs with
  | Some kv => Some (snd kv)
  | None => None
  end.

Definition option_eqb (a b : option jsstring) : bool :=
  match a, b with
  | Some x, Some y => JsString.eqb x y
  | None, None => true
  | _, _ => false
  end.

(** ** Prompt helpers *)

Definition dutch_system_prompt : jsstring :=
  lines [ [];
         str "Je bent een e-mailcopywriter voor Telenet Business.";
         str "Je schrijft in het Nederlands, professioneel maar vlot, duidelijk en kort.";
         str "Gebruik maximaal 120 tekens voor de subject line en 120 tekens voor de preheader.";
         str "Gebruik eenvoudige HTML met inline styles, zonder <style> of <script>.";
         str "Gebruik {{lead.First Name}} als placeholder voor de voornaam.";
         str "De e-mail is bedoeld om leads te overtuigen een volgende stap te zetten.";
         str "Output ALTIJD exact in geldig JSON-formaat (één object), zonder extra tekst." ].

Definition english_system_prompt : jsstring :=
  lines [ [];
         str "You are an email copywriter for Telenet Business.";
         str "Write in clear, concise, professional language.";
         str "Max 120 characters for subject and 120 for preheader.";
         str "Use simple HTML with inline styles only, no <style> or <script>.";
         str "Use {{lead.First Name}} as the placeholder for the first name.";
         str "Output MUST be a single valid JSON object, nothing else." ].

(** [language === 'nl'] *)
Definition is_nl (language : JSValue) : bool :=
  match language with
  | JStr s => JsString.eqb s (str "nl")
  | _ => false
  end.

Definition buildSystemPrompt (language : JSValue) : jsstring :=
  let language := default_to (JStr (str "nl")) language in
  if is_nl language then dutch_system_prompt else english_system_prompt.

(** The errors that [index.js] throws. *)
Definition token_error : exn :=
  Error (str "Failed to get Marketo access token").

Definition update_error : exn := Error (str "Failed to update Marketo lead").

Definition unknown_base_error (baseDataId : jsstring) : exn :=
  Error (str "Onbekende baseDataId: " ++ baseDataId).

Definition openai_error : exn := Error (str "Failed to call OpenAI").

Definition no_object_error : exn :=
  Error (str "OpenAI output bevat geen geldig JSON-object").

Definition not_json_error : exn :=
  Error (str "OpenAI output is geen zuiver JSON (zie logs voor details)").

Definition missing_fields_error : exn :=
  Error (str "OpenAI JSON mist subject/preheader/htmlBody").

(** [st] with another list of sent requests. *)
Definition with_sent (st : State) (reqs : list Request) : State :=
  {| marketoToken := marketoToken st;
     marketoTokenExpiresAt := marketoTokenExpiresAt st;
     sent := reqs |}.

(** [now + (expires_in - 300) * 1000] *)
Definition expiry (now : Z) (expires_in : number) : number :=
  js_add (of_Z now) (js_mul (js_sub expires_in (Num 300)) (Num 1000)).

(** [parsed.subject && parsed.preheader && parsed.htmlBody] is truthy, for
    a value [parsed] that is neither [null] nor [undefined]. *)
Definition complete (parsed : JSValue) : bool :=
  truthy (get_prop parsed (str "subject"))
  && truthy (get_prop parsed (str "preheader"))
  && truthy (get_prop parsed (str "htmlBody")).

(** The arguments of [generateEmailWithAI] after the [language = 'nl']
    default of its destructuring pattern. *)
Definition defaulted (a : LeadArgs) : LeadArgs :=
  set_language a (default_to (JStr (str "nl")) (language a)).

Section Program.

Variable rt : Runtime.
Variable env : ProcessEnv.
Variable up : Upstream.

(** [coreBenefits.map((b, i) => `  ${i + 1}. ${b}`)], from index [i]. *)
Fixpoint numbered (i : Z) (bs : list jsstring) : list jsstring :=
  match bs with
  | [] => []
  | b :: r =>
    (str "  " ++ NumberToString rt (inject_Z (i + 1)) ++ str ". " ++ b)
      :: numbered (i + 1) r
  end.

(** [buildUserPrompt({ sector, employeeCount, jobTitle, language, base })].
    The substitutions of the template are converted to strings from left
    to right; reading [base.coreBenefits.map] throws when [base] is a
    member of [Object.prototype]. *)
Definition buildUserPrompt (a : LeadArgs) (base : base_entry)
  : result jsstring :=
  let onbekend := JStr (str "onbekend") in
  rbind (ToString rt (js_or (sector a) onbekend)) (fun sector_ =>
  rbind (ToString rt (js_or (employeeCount a) onbekend)) (fun employeeCount_ =>
  rbind (ToString rt (js_or (jobTitle a) onbekend)) (fun jobTitle_ =>
  rbind (ToString rt (js_or (language a) (JStr (str "nl")))) (fun language_ =>
  match base with
  | PrototypeMember =>
    inl (Builtin (ReadOfNullish JUndefined (str "map")))
  | OwnEntry base =>
    inr (lines
      [ [];
        str "Schrijf een commerciële e-mail voor een lead met deze kenmerken:";
        str "- Sector: " ++ sector_;
        str "- Aantal werknemers: " ++ employeeCount_;
        str "- Jobtitel: " ++ jobTitle_;
        str "- Taal: " ++ language_;
        [];
        str "De e-mail gaat over het product " ++ quoted (productName base)
          ++ str ".";
        [];
        str "Belangrijkste voordelen die in de e-mail moeten terugkomen (vertaal en herschrijf in jouw eigen woorden):";
        join [newline] (numbered 0 (coreBenefits base));
        [];
        str "Call-to-action:";
        str "- Tekst: " ++ primaryCTA base;
        str "- Url: " ++ ctaUrl base;
        [];
        str "Structuur van de e-mail:";
        str "- Aanspreking met {{lead.First Name}}";
        str "- 1 korte intro die inspeelt op sector en jobtitel";
        str "- 2 à 3 korte alinea's met voordelen";
        str "- 1 duidelijke call-to-action button met link naar "
          ++ ctaUrl base;
        str "- Eventueel 1 korte afsluiter";
        [];
        str "BELANGRIJK:";
        str "Geef de output als één JSON-object met deze structuur:";
        [];
        str "{";
        str "  " ++ quoted (str "subject") ++ str ": " ++ quoted (str "…")
          ++ str ",";
        str "  " ++ quoted (str "preheader") ++ str ": " ++ quoted (str "…")
          ++ str ",";
        str "  " ++ quoted (str "htmlBody") ++ str ": "
          ++ quoted (str "<!DOCTYPE html>…</html>");
        str "}";
        [];
        str "Zorg dat htmlBody volledige, geldige HTML bevat (met <html>, <body>, …).";
        str "Geen extra tekst rond de JSON, geen uitleg. Enkel het JSON-object." ])
  end)))).

(** ** The network and the clock *)

(** [await fetch(...)]: the request is recorded, then the call resolves
    to a response or rejects. *)
Definition fetch (req : Request) : M Response :=
  fun st =>
    let st' := with_sent st (req :: sent st) in
    match respond up (sent st) req with
    | Some res => (inr res, st')
    | None => (inl (Builtin (FetchFailed (url req))), st')
    end.

Definition Date_now_ : M Z := fun st => (inr (Date_now up (sent st)), st).

(** [await res.json()] *)
Definition res_json (res : Response) : result JSValue :=
  match JSON_parse rt (payload res) with
  | Some v => inr v
  | None => inl (Builtin (BadJSON (payload res)))
  end.

(** ** Marketo helpers *)

Definition token_url : jsstring :=
  env_text (MARKETO_BASE_URL env) ++ str "/identity/oauth/token"
    ++ str "?grant_type=client_credentials"
    ++ str "&client_id="
    ++ encodeURIComponent rt (env_text (MARKETO_CLIENT_ID env))
    ++ str "&client_secret="
    ++ encodeURIComponent rt (env_text (MARKETO_CLIENT_SECRET env)).

(** [fetch(url)] *)
Definition token_request : Request :=
  {| url := token_url; method := str "GET"; headers := []; body := None |}.

Definition getMarketoAccessToken : M JSValue :=
  now <- Date_now_ ;;
  st <- get_state ;;
  if truthy (marketoToken st)
     && js_lt (of_Z now) (marketoTokenExpiresAt st)
  then ret (marketoToken st)
  else
    res <- fetch token_request ;;
    if negb (ok res)
    then throw token_error
    else
      data <- lift (res_json res) ;;
      access_token <- lift (member data (str "access_token")) ;;
      set_marketoToken access_token ;;;
      (* marge aftrekken *)
      expires_in <- lift (member data (str "expires_in")) ;;
      expires_in <- lift (ToNumber rt expires_in) ;;
      set_marketoTokenExpiresAt (expiry now expires_in) ;;;
      st <- get_state ;;
      ret (marketoToken st).

Definition leads_url : jsstring :=
  env_text (MARKETO_BASE_URL env) ++ str "/rest/v1/leads.json".

Definition update_body (marketoLeadId : JSValue) (fields : properties)
  : JSValue :=
  JObj [ (str "action", JStr (str "updateOnly"));
         (str "lookupField", JStr (str "id"));
         (str "input",
          JArr [ JObj (spread [(str "id", marketoLeadId)] fields) ]) ].

Definition update_request (token : jsstring) (marketoLeadId : JSValue)
           (fields : properties) : Request :=
  {| url := leads_url;
     method := str "POST";
     headers := [ (str "Authorization", str "Bearer " ++ token);
                  (str "Content-Type", str "application/json") ];
     body := Some (JSON_stringify rt (update_body marketoLeadId fields)) |}.

(** [data && data.errors && data.errors.length] *)
Definition errors_length (data : JSValue) : JSValue :=
  js_and data
    (js_and (get_prop data (str "errors"))
            (get_prop (get_prop data (str "errors")) (str "length"))).

Definition updateMarketoLead (marketoLeadId : JSValue) (fields : properties)
  : M JSValue :=
  token <- getMarketoAccessToken ;;
  token <- lift (ToString rt token) ;;
  res <- fetch (update_request token marketoLeadId fields) ;;
  data <- lift (res_json res) ;;
  if negb (ok res) || truthy (errors_length data)
  then throw update_error
  else ret data.

(** ** E-mail generation *)

(** [BASE_DATA[key]], when truthy. *)
Definition BASE_DATA (key : jsstring) : option base_entry :=
  if JsString.eqb key (str "VC_BASE_V1") then Some (OwnEntry VC_BASE_V1)
  else if inObjectPrototype rt key then Some PrototypeMember
  else None.

Definition chat_url : jsstring :=
  str "https://api.openai.com/v1/chat/completions".

Definition chat_body (systemPrompt userPrompt : jsstring) : JSValue :=
  JObj [ (str "model", JStr (str "gpt-4.1-mini"));
         (* extra hint naar JSON-only *)
         (str "response_format",
          JObj [ (str "type", JStr (str "json_object")) ]);
         (str "messages",
          JArr [ JObj [ (str "role", JStr (str "system"));
                        (str "content", JStr systemPrompt) ];
                 JObj [ (str "role", JStr (str "user"));
                        (str "content", JStr userPrompt) ] ]);
         (str "temperature", JNum (7 # 10)) ].

Definition chat_request (systemPrompt userPrompt : jsstring) : Request :=
  {| url := chat_url;
     method := str "POST";
     headers := [ (str "Authorization",
                   str "Bearer " ++ env_text (OPENAI_API_KEY env));
                  (str "Content-Type", str "application/json") ];
     body := Some (JSON_stringify rt (chat_body systemPrompt userPrompt)) |}.

(** The receiver of [content.trim()]: only a string has the method. *)
Definition string_receiver (v : JSValue) (m : jsstring) : result jsstring :=
  match v with
  | JStr s => inr s
  | JUndefined | JNull => inl (Builtin (ReadOfNullish v m))
  | _ => inl (Builtin (NotAFunction v m))
  end.

(** CLEANUP STAP 1: code fences weghalen. *)
Definition cleanup_stap1 (content : jsstring) : jsstring :=
  if startsWith (trim content) fence
  then trim (replace_closing_fence (replace_opening_fence content))
  else content.

(** CLEANUP STAP 2: enkel het stuk tussen eerste { en laatste } nemen. *)
Definition cleanup_stap2 (content : jsstring) : result jsstring :=
  let firstCurly := indexOf content lbrace in
  let lastCurly := lastIndexOf content rbrace in
  if (firstCurly =? -1) || (lastCurly =? -1) || (lastCurly <=? firstCurly)
  then inl no_object_error
  else inr (slice content firstCurly (lastCurly + 1)).

(** [try { parsed = JSON.parse(jsonSlice) } catch (e) { throw ... }] *)
Definition parse_slice (jsonSlice : jsstring) : result JSValue :=
  match JSON_parse rt jsonSlice with
  | Some parsed => inr parsed
  | None => inl not_json_error
  end.

(** [if (!parsed.subject || !parsed.preheader || !parsed.htmlBody) throw ...] *)
Definition check_fields (parsed : JSValue) : result JSValue :=
  rbind (member parsed (str "subject")) (fun subject =>
  if negb (truthy subject)
  then inl missing_fields_error
  else
    rbind (member parsed (str "preheader")) (fun preheader =>
    if negb (truthy preheader)
    then inl missing_fields_error
    else
      rbind (member parsed (str "htmlBody")) (fun htmlBody =>
      if negb (truthy htmlBody)
      then inl missing_fields_error
      else inr parsed))).

(** Lines 208 to 244 of [generateEmailWithAI]: from the content of the
    model's message to the validated e-mail. *)
Definition email_of_content (content : JSValue) : result JSValue :=
  rbind (string_receiver content (str "trim")) (fun content =>
  rbind (cleanup_stap2 (cleanup_stap1 content)) (fun jsonSlice =>
  rbind (parse_slice jsonSlice) check_fields)).

(** [data.choices[0].message.content], with [data] the parsed body of
    the response. *)
Definition content_of (res : Response) : result JSValue :=
  rbind (res_json res) (fun data =>
  rbind (member data (str "choices")) (fun choices =>
  rbind (member0 choices) (fun choice =>
  rbind (member choice (str "message")) (fun message =>
  member message (str "content"))))).

(** Lines 165 to 204 of [generateEmailWithAI]: from the arguments to
    [data.choices[0].message.content]. *)
Definition fetch_content (a : LeadArgs) : M JSValue :=
  let a := defaulted a in
  key <- lift (ToString rt (baseDataId a)) ;;
  match BASE_DATA key with
  | None => throw (unknown_base_error key)
  | Some base =>
    let systemPrompt := buildSystemPrompt (language a) in
    userPrompt <- lift (buildUserPrompt a base) ;;
    res <- fetch (chat_request systemPrompt userPrompt) ;;
    if negb (ok res)
    then throw openai_error
    else lift (content_of res)
  end.

Definition generateEmailWithAI (a : LeadArgs) : M JSValue :=
  content <- fetch_content a ;;
  lift (email_of_content content).

(** ** Routes *)

Definition fieldsToUpdate (aiEmail language : JSValue) : properties :=
  [ (str "AI_Email_Subject__c", get_prop aiEmail (str "subject"));
    (str "AI_Email_Preheader__c", get_prop aiEmail (str "preheader"));
    (str "AI_Email_Body_HTML__c", get_prop aiEmail (str "htmlBody"));
    (str "AI_Email_Language__c", language);
    (str "AI_Email_Ready__c", JBool true) ].

Definition error_reply (code : Z) (message : JSValue) : Reply :=
  {| reply_status := code; reply_json := JObj [ (str "error", message) ] |}.

Definition success_reply (aiEmail mktoResponse : JSValue) : Reply :=
  {| reply_status := 200;
     reply_json :=
       JObj [ (str "success", JBool true);
              (str "message",
               JStr (str "AI email gegenereerd en in Marketo gezet"));
              (str "aiEmail", aiEmail);
              (str "marketo", mktoResponse) ] |}.

(** [WEBHOOK_SECRET && req.headers['x-webhook-key'] !== WEBHOOK_SECRET] *)
Definition unauthorized (req : WebhookRequest) : bool :=
  match WEBHOOK_SECRET env with
  | Some ((_ :: _) as secret) =>
    negb (option_eqb (header (req_headers req) (str "x-webhook-key"))
                     (Some secret))
  | _ => false
  end.

(** The [language = 'nl'] of the handler's destructuring pattern. *)
Definition request_language (body : JSValue) : JSValue :=
  default_to (JStr (str "nl")) (get_prop body (str "language")).

(** The arguments the handler passes to [generateEmailWithAI]. *)
Definition handler_args (body : JSValue) : LeadArgs :=
  {| sector := get_prop body (str "sector");
     employeeCount := get_prop body (str "employeeCount");
     jobTitle := get_prop body (str "jobTitle");
     language := request_language body;
     baseDataId :=
       default_to (JStr (str "VC_BASE_V1"))
                  (get_prop body (str "baseDataId")) |}.

(** The body of the [try] block of the handler. *)
Definition ai_email_try (req : WebhookRequest) : M Reply :=
  (* simpele header security *)
  if unauthorized req
  then ret (error_reply 401 (JStr (str "Unauthorized")))
  else
    let body := req_body req in
    (* destructuring [req.body] throws when it is null or undefined *)
    lift (member body (str "email")) ;;;
    let marketoLeadId := get_prop body (str "marketoLeadId") in
    let language := request_language body in
    if negb (truthy marketoLeadId)
    then ret (error_reply 400 (JStr (str "marketoLeadId is verplicht")))
    else
      aiEmail <- generateEmailWithAI (handler_args body) ;;
      mktoResponse <- updateMarketoLead marketoLeadId
                        (fieldsToUpdate aiEmail language) ;;
      ret (success_reply aiEmail mktoResponse).

(** The reply of the [catch] block of the handler. *)
Definition server_error (err : exn) : Reply :=
  error_reply 500
    (js_or (JStr (message_of rt err)) (JStr (str "Internal server error"))).

(** [app.post('/webhooks/ai-email', ...)] *)
Definition post_webhooks_ai_email (req : WebhookRequest)
  : State -> Reply * State :=
  fun st =>
    match ai_email_try req st with
    | (inr reply, st') => (reply, st')
    | (inl err, st') => (server_error err, st')
    end.

End Program.

(* ================================================================= *)
(** * A reference runtime

    A small implementation of the built-ins, to run the program on concrete
    inputs.  The theorems below do not depend on it: they are stated for
    every [Runtime]. *)

Module Reference.

Definition digit (c : unit16) : option Z :=
  if ((48 <=? c) && (c <=? 57))%N then Some (Z.of_N c - 48) else None.

Definition hexdigit (c : unit16) : option N :=
  if ((48 <=? c) && (c <=? 57))%N then Some (c - 48)%N
  else if ((97 <=? c) && (c <=? 102))%N then Some (c - 87)%N
  else if ((65 <=? c) && (c <=? 70))%N then Some (c - 55)%N
  else None.

Definition json_space (c : unit16) : bool :=
  existsb (N.eqb c) [32; 9; 10; 13]%N.

(** A run of decimal digits: its value, its length and the rest. *)
Fixpoint digits (s : jsstring) (acc : Z) (n : nat) : Z * nat * jsstring :=
  match s with
  | c :: r =>
    match digit c with
    | Some d => digits r (acc * 10 + d) (S n)
    | None => (acc, n, s)
    end
  | [] => (acc, n, s)
  end.

Definition pow10 (e : Z) : Q :=
  if e <? 0 then 1 # Pos.pow 10 (Z.to_pos (- e))
  else inject_Z (Z.pow 10 e).

(** [-? int frac? exp?] *)
Definition parse_number (s : jsstring) : option (Q * jsstring) :=
  let '(neg, s1) := match s with
                    | 45%N :: r => (true, r)
                    | _ => (false, s)
                    end in
  let '(ip, n, s2) := digits s1 0 0 in
  let int_ok := match s1 with
                | 48%N :: _ => Nat.eqb n 1
                | _ => negb (Nat.eqb n 0)
                end in
  let '(fp, fn, s3, frac_ok) :=
    match s2 with
    | 46%N :: r =>
      let '(v, k, t) := digits r 0 0 in (v, k, t, negb (Nat.eqb k 0))
    | _ => (0, O, s2, true)
    end in
  let '(ex, s4, exp_ok) :=
    match s3 with
    | (101%N | 69%N) :: r =>
      let '(eneg, r1) := match r with
                         | 45%N :: t => (true, t)
                         | 43%N :: t => (false, t)
                         | _ => (false, r)
                         end in
      let '(ev, en, r2) := digits r1 0 0 in
      (if eneg then - ev else ev, r2, negb (Nat.eqb en 0))
    | _ => (0, s3, true)
    end in
  if int_ok && frac_ok && exp_ok
  then
    let mant := (inject_Z ip + inject_Z fp * pow10 (- Z.of_nat fn))%Q in
    let q := Qred (mant * pow10 ex) in
    Some (if neg then Qred (- q) else q, s4)
  else None.

(** The characters of a string literal after its opening quote. *)
Fixpoint parse_chars (s : jsstring) (acc : jsstring)
  : option (jsstring * jsstring) :=
  match s with
  | [] => None
  | 34%N :: r => Some (rev acc, r)
  | 92%N :: 117%N :: a :: b :: c :: d :: r =>
    match hexdigit a, hexdigit b, hexdigit c, hexdigit d with
    | Some x, Some y, Some z, Some w =>
      parse_chars r ((x * 4096 + y * 256 + z * 16 + w)%N :: acc)
    | _, _, _, _ => None
    end
  | 92%N :: e :: r =>
    match e with
    | 34%N | 92%N | 47%N => parse_chars r (e :: acc)
    | 98%N => parse_chars r (8%N :: acc)
    | 102%N => parse_chars r (12%N :: acc)
    | 110%N => parse_chars r (10%N :: acc)
    | 114%N => parse_chars r (13%N :: acc)
    | 116%N => parse_chars r (9%N :: acc)
    | _ => None
    end
  | c :: r => if (c <? 32)%N then None else parse_chars r (c :: acc)
  end.

Definition skip (s : jsstring) : jsstring := dropWhile json_space s.

Fixpoint parse_value (fuel : nat) (s : jsstring) {struct fuel}
  : option (JSValue * jsstring) :=
  match fuel with
  | O => None
  | S fuel =>
    match skip s with
    | 123%N :: r =>
      match skip r with
      | 125%N :: r' => Some (JObj [], r')
      | r' => parse_members fuel r' []
      end
    | 91%N :: r =>
      match skip r with
      | 93%N :: r' => Some (JArr [], r')
      | r' => parse_elements fuel r' []
      end
    | 34%N :: r =>
      match parse_chars r [] with
      | Some (x, r') => Some (JStr x, r')
      | None => None
      end
    | 116%N :: 114%N :: 117%N :: 101%N :: r => Some (JBool true, r)
    | 102%N :: 97%N :: 108%N :: 115%N :: 101%N :: r => Some (JBool false, r)
    | 110%N :: 117%N :: 108%N :: 108%N :: r => Some (JNull, r)
    | s' =>
      match parse_number s' with
      | Some (q, r) => Some (JNum q, r)
      | None => None
      end
    end
  end
with parse_members (fuel : nat) (s : jsstring) (acc : properties)
     {struct fuel} : option (JSValue * jsstring) :=
  match fuel with
  | O => None
  | S fuel =>
    match skip s with
    | 34%N :: r =>
      match parse_chars r [] with
      | Some (k, r1) =>
        match skip r1 with
        | 58%N :: r2 =>
          match parse_value fuel r2 with
          | Some (v, r3) =>
            match skip r3 with
            | 44%N :: r4 => parse_members fuel r4 (assign acc k v)
            | 125%N :: r4 => Some (JObj (assign acc k v), r4)
            | _ => None
            end
          | None => None
          end
        | _ => None
        end
      | None => None
      end
    | _ => None
    end
  end
with parse_elements (fuel : nat) (s : jsstring) (acc : list JSValue)
     {struct fuel} : option (JSValue * jsstring) :=
  match fuel with
  | O => None
  | S fuel =>
    match parse_value fuel s with
    | Some (v, r) =>
      match skip r with
      | 44%N :: r' => parse_elements fuel r' (acc ++ [v])
      | 93%N :: r' => Some (JArr (acc ++ [v]), r')
      | _ => None
      end
    | None => None
    end
  end.

Definition parse (s : jsstring) : option JSValue :=
  match parse_value (2 * List.length s + 2) s with
  | Some (v, r) => match skip r with [] => Some v | _ => None end
  | None => None
  end.

Definition decimal (z : Z) : jsstring :=
  str (NilEmpty.string_of_int (Z.to_int z)).

(** The digits of [r / d] after the decimal point. *)
Fixpoint fraction (fuel : nat) (r d : Z) : jsstring :=
  match fuel with
  | O => []
  | S fuel =>
    if r =? 0 then []
    else N.of_nat (Z.to_nat (48 + (r * 10) / d))
           :: fraction fuel ((r * 10) mod d) d
  end.

Definition number_to_string (q : Q) : jsstring :=
  let q := Qred q in
  let n := Z.abs (Qnum q) in
  let d := Zpos (Qden q) in
  let whole := decimal (n / d) in
  (if Qnum q <? 0 then str "-" else [])
    ++ whole
    ++ (if n mod d =? 0 then [] else str "." ++ fraction 17 (n mod d) d).

Definition string_to_number (s : jsstring) : number :=
  match trim s with
  | [] => Num 0
  | 43%N :: t =>
    match parse_number t with Some (q, []) => Num q | _ => NaN end
  | t => match parse_number t with Some (q, []) => Num q | _ => NaN end
  end.

Definition hex (n : N) : unit16 :=
  if (n <? 10)%N then (48 + n)%N else (55 + n)%N.

Definition percent (b : N) : jsstring :=
  [37%N; hex (b / 16); hex (b mod 16)].

Definition unreserved (c : unit16) : bool :=
  isAsciiLetter c || ((48 <=? c) && (c <=? 57))%N
  || existsb (N.eqb c) [45; 95; 46; 33; 126; 42; 39; 40; 41]%N.

Fixpoint encode_uri_component (s : jsstring) : jsstring :=
  match s with
  | [] => []
  | c :: r =>
    (if unreserved c then [c]
     else if (c <? 128)%N then percent c
     else if (c <? 2048)%N
          then percent (192 + c / 64) ++ percent (128 + c mod 64)
          else percent (224 + c / 4096) ++ percent (128 + (c / 64) mod 64)
                 ++ percent (128 + c mod 64))
      ++ encode_uri_component r
  end.

Fixpoint escape (s : jsstring) : jsstring :=
  match s with
  | [] => []
  | c :: r =>
    (if (c =? 34)%N || (c =? 92)%N then [92%N; c]
     else if (c =? 10)%N then str "\n"
     else if (c =? 13)%N then str "\r"
     else if (c =? 9)%N then str "\t"
     else if (c <? 32)%N then str "\u00" ++ [hex (c / 16); hex (c mod 16)]
     else [c]) ++ escape r
  end.

Fixpoint stringify (v : JSValue) : jsstring :=
  match v with
  | JUndefined | JNull => str "null"
  | JBool true => str "true"
  | JBool false => str "false"
  | JNum q => number_to_string q
  | JStr x => quoted (escape x)
  | JArr l =>
    str "[" ++ join (str ",") (map stringify l) ++ str "]"
  | JObj ps =>
    str "{"
      ++ join (str ",")
           ((fix members (ps : properties) : list jsstring :=
               match ps with
               | [] => []
               | (k, JUndefined) :: r => members r
               | (k, x) :: r =>
                 (quoted (escape k) ++ str ":" ++ stringify x) :: members r
               end) ps)
      ++ str "}"
  end.

Definition in_object_prototype (k : jsstring) : bool :=
  existsb (JsString.eqb k)
    [ str "constructor"; str "hasOwnProperty"; str "isPrototypeOf";
      str "propertyIsEnumerable"; str "toLocaleString"; str "toString";
      str "valueOf"; str "__proto__"; str "__defineGetter__";
      str "__defineSetter__"; str "__lookupGetter__";
      str "__lookupSetter__" ].

Definition message (f : fault) : jsstring :=
  match f with
  | ReadOfNullish _ k =>
    str "Cannot read properties of undefined (reading '" ++ k ++ str "')"
  | NotAFunction _ k => k ++ str " is not a function"
  | NotPrimitive _ => str "Cannot convert object to primitive value"
  | BadJSON _ => str "Unexpected token in JSON"
  | FetchFailed _ => str "fetch failed"
  end.

Definition runtime : Runtime :=
  {| JSON_parse := parse;
     JSON_stringify := stringify;
     encodeURIComponent := encode_uri_component;
     NumberToString := number_to_string;
     StringToNumber := string_to_number;
     inObjectPrototype := in_object_prototype;
     fault_message := message |}.

End Reference.

(* ================================================================= *)
(** * Concrete scenarios *)

Module Scenario.

Definition env : ProcessEnv :=
  {| OPENAI_API_KEY := Some (str "sk-test");
     MARKETO_BASE_URL := Some (str "https://123-ABC-456.mktorest.com");
     MARKETO_CLIENT_ID := Some (str "client id");
     MARKETO_CLIENT_SECRET := Some (str "s3cr&t");
     WEBHOOK_SECRET := None |}.

(** An upstream whose three services answer with fixed responses and
    whose clock shows [now]. *)
Definition upstream (now : Z) (token chat leads : Response) : Upstream :=
  {| Date_now := fun _ => now;
     respond := fun _ req =>
       if JsString.eqb (url req) (chat_url)
       then Some chat
       else if JsString.eqb (url req) (leads_url env)
            then Some leads
            else Some token |}.

Definition json (code : Z) (v : JSValue) : Response :=
  {| status := code; payload := Reference.stringify v |}.

(** The envelope of a chat completion whose message has [content]. *)
Definition completion (content : JSValue) : Response :=
  json 200
    (JObj [ (str "id", JStr (str "chatcmpl-1"));
            (str "choices",
             JArr [ JObj [ (str "index", JNum 0);
                           (str "message",
                            JObj [ (str "role", JStr (str "assistant"));
                                   (str "content", content) ]) ] ]) ]).

Definition token_ok : Response :=
  json 200
    (JObj [ (str "access_token", JStr (str "tok-1"));
            (str "token_type", JStr (str "bearer"));
            (str "expires_in", JNum 3600) ]).

Definition token_denied : Response :=
  {| status := 401; payload := str "invalid client" |}.

Definition leads_ok : Response :=
  json 200
    (JObj [ (str "requestId", JStr (str "e42b#14272d07d78"));
            (str "success", JBool true);
            (str "result",
             JArr [ JObj [ (str "id", JNum 42);
                           (str "status", JStr (str "updated")) ] ]) ]).

(** HTTP 200 with a non-empty [errors] array. *)
Definition leads_errors : Response :=
  json 200
    (JObj [ (str "requestId", JStr (str "e42b#14272d07d78"));
            (str "success", JBool false);
            (str "errors",
             JArr [ JObj [ (str "code", JStr (str "1004"));
                           (str "message", JStr (str "Lead not found")) ] ]) ]).

(** A gateway error whose body is not JSON. *)
Definition leads_bad_gateway : Response :=
  {| status := 502; payload := str "<html>Bad Gateway</html>" |}.

(** The clean model output of the specification, [clean_text], is
    [clean_inner] between braces. *)
Definition clean_inner : jsstring :=
  quoted (str "subject") ++ str ":" ++ quoted (str "S")
    ++ str "," ++ quoted (str "preheader") ++ str ":" ++ quoted (str "P")
    ++ str "," ++ quoted (str "htmlBody") ++ str ":"
    ++ quoted (str "<html></html>").

Definition clean_text : jsstring := lbrace :: clean_inner ++ [rbrace].

Definition clean_email : JSValue :=
  JObj [ (str "subject", JStr (str "S"));
         (str "preheader", JStr (str "P"));
         (str "htmlBody", JStr (str "<html></html>")) ].

(** The same object in a code fence, followed by a remark. *)
Definition remark : jsstring :=
  [newline] ++ fence ++ [newline] ++ str "Hope this helps!".

Definition fenced_text : jsstring :=
  fence ++ str "json" ++ [newline] ++ clean_text ++ remark.

(** A reply without any brace. *)
Definition apology : jsstring := str "Sorry, I cannot help with that.".

(** A parsable object whose [preheader] is empty. *)
Definition empty_preheader : jsstring :=
  Reference.stringify
    (JObj [ (str "subject", JStr (str "S"));
            (str "preheader", JStr []);
            (str "htmlBody", JStr (str "<html></html>")) ]).

Definition lead (language : properties) : WebhookRequest :=
  {| req_headers := [ (str "content-type", str "application/json") ];
     req_body :=
       JObj ([ (str "marketoLeadId", JStr (str "42"));
               (str "sector", JStr (str "Retail"));
               (str "jobTitle", JStr (str "CFO")) ] ++ language) |}.

Definition lead_nl : WebhookRequest :=
  lead [ (str "language", JStr (str "nl")) ].

Definition lead_empty_language : WebhookRequest :=
  lead [ (str "language", JStr []) ].

Definition no_lead_id : WebhookRequest :=
  {| req_headers := [];
     req_body := JObj [ (str "sector", JStr (str "Retail")) ] |}.

Definition args_nl : LeadArgs :=
  {| sector := JStr (str "Retail");
     employeeCount := JUndefined;
     jobTitle := JStr (str "CFO");
     language := JStr (str "nl");
     baseDataId := JStr (str "VC_BASE_V1") |}.

(** A cache holding a token that expired at time 1000. *)
Definition stale : State :=
  {| marketoToken := JStr (str "tok-0");
     marketoTokenExpiresAt := Num 1000;
     sent := [] |}.

(** A cache holding a token valid until time 5000. *)
Definition fresh : State :=
  {| marketoToken := JStr (str "tok-0");
     marketoTokenExpiresAt := Num 5000;
     sent := [] |}.

(** An upstream whose clock advances by one second with every request
    sent. *)
Definition ticking (token chat leads : Response) : Upstream :=
  {| Date_now := fun history => 2000 + 1000 * Z.of_nat (List.length history);
     respond := fun _ req =>
       if JsString.eqb (url req) (chat_url)
       then Some chat
       else if JsString.eqb (url req) (leads_url env)
            then Some leads
            else Some token |}.

(** A token response without [access_token]. *)
Definition token_without_value : Response :=
  json 200
    (JObj [ (str "token_type", JStr (str "bearer"));
            (str "expires_in", JNum 3600) ]).

(** A token that lives for two minutes. *)
Definition token_short_lived : Response :=
  json 200
    (JObj [ (str "access_token", JStr (str "tok-2"));
            (str "expires_in", JNum 120) ]).


(** A request carrying the webhook key [k]. *)
Definition keyed (k : jsstring) : WebhookRequest :=
  {| req_headers := [ (str "x-webhook-key", k) ];
     req_body := JObj [ (str "marketoLeadId", JStr (str "42")) ] |}.

Definition env_with_secret : ProcessEnv :=
  {| OPENAI_API_KEY := OPENAI_API_KEY env;
     MARKETO_BASE_URL := MARKETO_BASE_URL env;
     MARKETO_CLIENT_ID := MARKETO_CLIENT_ID env;
     MARKETO_CLIENT_SECRET := MARKETO_CLIENT_SECRET env;
     WEBHOOK_SECRET := Some (str "hunter2") |}.

End Scenario.

Arguments js_lt : simpl never.
Arguments of_Z : simpl never.
Arguments expiry : simpl never.

(* ================================================================= *)
(** * Facts about the string operations *)

Section StringFacts.

Lemma neqb_In (c x : unit16) (s : jsstring) :
  ~ In c (x :: s) -> (x =? c)%N = false /\ ~ In c s.
Proof.
  intros H. split.
  - apply N.eqb_neq. intros ->. apply H. now left.
  - intros Hin. apply H. now right.
Qed.

Lemma indexOf_from_notin (s : jsstring) (c : unit16) (i : Z) :
  ~ In c s -> indexOf_from s c i = -1.
Proof.
  revert i. induction s as [|x r IH]; intros i H; simpl.
  - reflexivity.
  - destruct (neqb_In H) as [-> Hr]. now apply IH.
Qed.

Lemma indexOf_from_skip (pre rest : jsstring) (c : unit16) (i : Z) :
  ~ In c pre ->
  indexOf_from (pre ++ rest) c i
  = indexOf_from rest c (i + Z.of_nat (List.length pre)).
Proof.
  revert i. induction pre as [|x r IH]; intros i H; simpl.
  - now rewrite Z.add_0_r.
  - destruct (neqb_In H) as [-> Hr]. rewrite IH by assumption.
    f_equal. lia.
Qed.

Lemma indexOf_from_first (pre rest : jsstring) (c : unit16) (i : Z) :
  ~ In c pre ->
  indexOf_from (pre ++ c :: rest) c i = i + Z.of_nat (List.length pre).
Proof.
  intros H. rewrite indexOf_from_skip by assumption. simpl.
  now rewrite N.eqb_refl.
Qed.

Lemma indexOf_from_range (s : jsstring) (c : unit16) (i : Z) :
  indexOf_from s c i = -1 \/ i <= indexOf_from s c i.
Proof.
  revert i. induction s as [|x r IH]; intros i; simpl.
  - now left.
  - destruct (x =? c)%N.
    + right. lia.
    + destruct (IH (i + 1)) as [E | E]; [now left | right; lia].
Qed.

Lemma indexOf_from_found (s : jsstring) (c : unit16) (i : Z) :
  0 <= i -> In c s -> indexOf_from s c i <> -1.
Proof.
  revert i. induction s as [|x r IH]; intros i Hi Hin; simpl.
  - destruct Hin.
  - destruct (N.eqb_spec x c) as [E | E].
    + lia.
    + destruct Hin as [Hx | Hr]; [contradiction |].
      apply IH; [lia | assumption].
Qed.

Lemma lastIndexOf_from_notin (s : jsstring) (c : unit16) (i acc : Z) :
  ~ In c s -> lastIndexOf_from s c i acc = acc.
Proof.
  revert i acc. induction s as [|x r IH]; intros i acc H; simpl.
  - reflexivity.
  - destruct (neqb_In H) as [-> Hr]. now apply IH.
Qed.

Lemma lastIndexOf_from_last (pre post : jsstring) (c : unit16) (i acc : Z) :
  ~ In c post ->
  lastIndexOf_from (pre ++ c :: post) c i acc
  = i + Z.of_nat (List.length pre).
Proof.
  revert i acc. induction pre as [|x r IH]; intros i acc H; simpl.
  - rewrite N.eqb_refl, lastIndexOf_from_notin by assumption. lia.
  - rewrite IH by assumption. lia.
Qed.

Lemma lastIndexOf_from_lower (s : jsstring) (c : unit16) (i acc : Z) :
  acc <= i -> acc <= lastIndexOf_from s c i acc.
Proof.
  revert i acc. induction s as [|x r IH]; intros i acc H; simpl.
  - lia.
  - destruct (x =? c)%N.
    + specialize (IH (i + 1) i). lia.
    + apply IH. lia.
Qed.

Lemma lastIndexOf_from_found (s : jsstring) (c : unit16) (i acc : Z) :
  acc <= i -> In c s -> i <= lastIndexOf_from s c i acc.
Proof.
  revert i acc. induction s as [|x r IH]; intros i acc H Hin; simpl.
  - destruct Hin.
  - destruct (N.eqb_spec x c) as [E | E].
    + apply lastIndexOf_from_lower. lia.
    + destruct Hin as [Hx | Hr]; [contradiction |].
      assert (i + 1 <= lastIndexOf_from r c (i + 1) acc)
        by (apply IH; [lia | assumption]).
      lia.
Qed.

(** [indexOf] and [lastIndexOf] return -1 exactly when the character
    does not occur. *)
Lemma indexOf_absent (s : jsstring) (c : unit16) :
  indexOf s c = -1 <-> ~ In c s.
Proof.
  unfold indexOf. split.
  - intros E Hin. now apply (@indexOf_from_found s c 0).
  - apply indexOf_from_notin.
Qed.

Lemma lastIndexOf_absent (s : jsstring) (c : unit16) :
  lastIndexOf s c = -1 <-> ~ In c s.
Proof.
  unfold lastIndexOf. split.
  - intros E Hin.
    assert (0 <= lastIndexOf_from s c 0 (-1))
      by (apply lastIndexOf_from_found; [lia | assumption]).
    lia.
  - apply lastIndexOf_from_notin.
Qed.

Lemma slice_middle (pre mid post : jsstring) :
  slice (pre ++ mid ++ post)
        (Z.of_nat (List.length pre))
        (Z.of_nat (List.length pre) + Z.of_nat (List.length mid))
  = mid.
Proof.
  unfold slice. rewrite !length_app.
  destruct (Z.ltb_spec (Z.of_nat (List.length pre)) 0); [lia |].
  destruct (Z.ltb_spec
              (Z.of_nat (List.length pre) + Z.of_nat (List.length mid)) 0);
    [lia |].
  rewrite !Z.min_l by lia.
  replace (Z.of_nat (List.length pre) + Z.of_nat (List.length mid)
           - Z.of_nat (List.length pre)) with (Z.of_nat (List.length mid))
    by lia.
  rewrite !Nat2Z.id.
  rewrite skipn_app, skipn_all, Nat.sub_diag. simpl.
  rewrite firstn_app, firstn_all, Nat.sub_diag. simpl.
  apply app_nil_r.
Qed.

Lemma dropWhile_head (p : unit16 -> bool) (c : unit16) (s : jsstring) :
  p c = false -> dropWhile p (c :: s) = c :: s.
Proof. intros H. simpl. now rewrite H. Qed.

Lemma dropWhile_all (p : unit16 -> bool) (w s : jsstring) :
  forallb p w = true -> dropWhile p (w ++ s) = dropWhile p s.
Proof.
  induction w as [|x r IH]; simpl; intros H.
  - reflexivity.
  - apply andb_prop in H as [-> Hr]. now apply IH.
Qed.

Lemma forallb_rev (p : unit16 -> bool) (w : jsstring) :
  forallb p w = true -> forallb p (rev w) = true.
Proof.
  rewrite !forallb_forall. intros H x Hx. apply H. now apply in_rev.
Qed.

Lemma trimEnd_solid (s : jsstring) (b : unit16) :
  isWhiteSpace b = false -> trimEnd (s ++ [b]) = s ++ [b].
Proof.
  intros Hb. unfold trimEnd.
  rewrite rev_unit, dropWhile_head by assumption.
  now rewrite <- rev_unit, rev_involutive.
Qed.

Lemma trimEnd_trailing (s w : jsstring) :
  forallb isWhiteSpace w = true -> trimEnd (s ++ w) = trimEnd s.
Proof.
  intros Hw. unfold trimEnd.
  now rewrite rev_app_distr, dropWhile_all by now apply forallb_rev.
Qed.

(** [trim] leaves alone a string that starts and ends with characters
    that are not white space. *)
Lemma trim_solid (a b : unit16) (mid : jsstring) :
  isWhiteSpace a = false -> isWhiteSpace b = false ->
  trim (a :: mid ++ [b]) = a :: mid ++ [b].
Proof.
  intros Ha Hb. unfold trim, trimStart.
  rewrite dropWhile_head by assumption.
  now apply (trimEnd_solid (a :: mid)).
Qed.

(** White space after the last solid character is removed. *)
Lemma trim_trailing (a b : unit16) (mid w : jsstring) :
  isWhiteSpace a = false -> isWhiteSpace b = false ->
  forallb isWhiteSpace w = true ->
  trim ((a :: mid ++ [b]) ++ w) = a :: mid ++ [b].
Proof.
  intros Ha Hb Hw. unfold trim, trimStart.
  change ((a :: mid ++ [b]) ++ w) with (a :: (mid ++ [b]) ++ w).
  rewrite dropWhile_head by assumption.
  change (a :: (mid ++ [b]) ++ w) with (((a :: mid) ++ [b]) ++ w).
  rewrite trimEnd_trailing by assumption.
  now apply trimEnd_solid.
Qed.

Lemma replace_closing_fence_app (s : jsstring) :
  replace_closing_fence (s ++ fence) = s.
Proof.
  unfold replace_closing_fence, endsWith. rewrite rev_app_distr.
  assert (E : startsWith (rev fence ++ rev s) (rev fence) = true)
    by reflexivity.
  rewrite E, length_app.
  change (List.length fence) with 3%nat.
  replace (List.length s + 3 - 3)%nat with (List.length s + 0)%nat by lia.
  rewrite firstn_app_2. simpl. apply app_nil_r.
Qed.

End StringFacts.

(* ================================================================= *)
(** * Extraction of the e-mail from the model's text *)

Section Extraction.

Variable rt : Runtime.

Lemma letter_not_space (c : unit16) :
  isWhiteSpace c = true -> isAsciiLetter c = false.
Proof.
  intros H. destruct (isAsciiLetter c) eqn:L; [exfalso | reflexivity].
  unfold isAsciiLetter in L. unfold isWhiteSpace in H. simpl in H.
  rewrite !orb_true_iff, !andb_true_iff, !N.leb_le in L.
  rewrite !orb_true_iff, !andb_true_iff, !N.leb_le, !N.eqb_eq in H.
  lia.
Qed.

(** The object between the first [{] and the last [}] is what is kept. *)
Lemma cleanup_stap2_object (pre mid post : jsstring) :
  ~ In lbrace pre -> ~ In rbrace post ->
  cleanup_stap2 (pre ++ lbrace :: mid ++ rbrace :: post)
  = inr (lbrace :: mid ++ [rbrace]).
Proof.
  intros Hpre Hpost.
  assert (Hfirst : indexOf (pre ++ lbrace :: mid ++ rbrace :: post) lbrace
                   = Z.of_nat (List.length pre)).
  { unfold indexOf. now rewrite indexOf_from_first. }
  assert (Hlast : lastIndexOf (pre ++ lbrace :: mid ++ rbrace :: post) rbrace
                  = Z.of_nat (List.length pre) + 1
                    + Z.of_nat (List.length mid)).
  { unfold lastIndexOf.
    change (pre ++ lbrace :: mid ++ rbrace :: post)
      with (pre ++ (lbrace :: mid) ++ rbrace :: post).
    rewrite app_assoc, lastIndexOf_from_last by assumption.
    rewrite length_app. simpl List.length. lia. }
  unfold cleanup_stap2. rewrite Hfirst, Hlast.
  destruct (Z.eqb_spec (Z.of_nat (List.length pre)) (-1)); [lia |].
  destruct (Z.eqb_spec (Z.of_nat (List.length pre) + 1
                        + Z.of_nat (List.length mid)) (-1)); [lia |].
  destruct (Z.leb_spec (Z.of_nat (List.length pre) + 1
                        + Z.of_nat (List.length mid))
                       (Z.of_nat (List.length pre))); [lia |].
  simpl orb. cbv iota. f_equal.
  replace (pre ++ lbrace :: mid ++ rbrace :: post)
    with (pre ++ (lbrace :: mid ++ [rbrace]) ++ post)
    by (simpl; now rewrite <- app_assoc).
  replace (Z.of_nat (List.length pre) + 1 + Z.of_nat (List.length mid) + 1)
    with (Z.of_nat (List.length pre)
          + Z.of_nat (List.length (lbrace :: mid ++ [rbrace])))
    by (simpl List.length; rewrite length_app; simpl List.length; lia).
  apply slice_middle.
Qed.

(** A text that starts with [{] and ends with [}] has no fence to strip. *)
Lemma cleanup_stap1_object (mid : jsstring) :
  cleanup_stap1 (lbrace :: mid ++ [rbrace]) = lbrace :: mid ++ [rbrace].
Proof.
  unfold cleanup_stap1. now rewrite trim_solid.
Qed.

(** A fenced object, with an optional language tag and white space
    inside the fence, is unwrapped by the first clean-up step. *)
Lemma cleanup_stap1_fenced (tag ws1 mid ws2 : jsstring) :
  forallb isAsciiLetter tag = true ->
  forallb isWhiteSpace ws1 = true ->
  forallb isWhiteSpace ws2 = true ->
  cleanup_stap1
    (fence ++ tag ++ ws1 ++ (lbrace :: mid ++ [rbrace]) ++ ws2 ++ fence)
  = lbrace :: mid ++ [rbrace].
Proof.
  intros Htag Hws1 Hws2.
  set (obj := lbrace :: mid ++ [rbrace]).
  set (inner := tag ++ ws1 ++ obj ++ ws2 ++ fence).
  assert (Htrim : startsWith (trim (fence ++ inner)) fence = true).
  { unfold trim, trimStart. simpl app.
    rewrite dropWhile_head by reflexivity.
    change (backtick :: backtick :: backtick :: inner)
      with (fence ++ inner).
    unfold inner.
    replace (fence ++ tag ++ ws1 ++ obj ++ ws2 ++ fence)
      with ((fence ++ tag ++ ws1 ++ obj ++ ws2 ++ [backtick; backtick])
              ++ [backtick])
      by (rewrite <- !app_assoc; reflexivity).
    rewrite trimEnd_solid by reflexivity.
    rewrite <- app_assoc. reflexivity. }
  unfold cleanup_stap1. rewrite Htrim.
  assert (Hopen : replace_opening_fence (fence ++ inner)
                  = obj ++ ws2 ++ fence).
  { simpl. unfold inner.
    rewrite dropWhile_all by assumption.
    assert (Hrest : dropWhile isAsciiLetter (ws1 ++ obj ++ ws2 ++ fence)
                    = ws1 ++ obj ++ ws2 ++ fence).
    { destruct ws1 as [|w ws1']; simpl.
      - reflexivity.
      - simpl in Hws1. apply andb_prop in Hws1 as [Hw _].
        now rewrite (letter_not_space _ Hw). }
    rewrite Hrest, dropWhile_all by assumption.
    reflexivity. }
  rewrite Hopen.
  assert (Hclose : replace_closing_fence (obj ++ ws2 ++ fence)
                   = obj ++ ws2).
  { rewrite app_assoc. apply replace_closing_fence_app. }
  rewrite Hclose. unfold obj. now apply trim_trailing.
Qed.

End Extraction.

Section ExtractionClaims.

Variable rt : Runtime.

Lemma check_fields_spec (parsed : JSValue) :
  nullish parsed = false ->
  check_fields parsed
  = if complete parsed then inr parsed else inl missing_fields_error.
Proof.
  intros Hn. unfold check_fields, member, complete. rewrite Hn. simpl rbind.
  destruct (truthy (get_prop parsed (str "subject"))); [| reflexivity].
  destruct (truthy (get_prop parsed (str "preheader"))); [| reflexivity].
  destruct (truthy (get_prop parsed (str "htmlBody"))); reflexivity.
Qed.

Lemma complete_not_nullish (parsed : JSValue) :
  complete parsed = true -> nullish parsed = false.
Proof.
  destruct parsed; try reflexivity; intros H; vm_compute in H;
    discriminate H.
Qed.

Lemma email_of_content_slice (text jsonSlice : jsstring) :
  cleanup_stap2 (cleanup_stap1 text) = inr jsonSlice ->
  email_of_content rt (JStr text)
  = rbind (parse_slice rt jsonSlice) check_fields.
Proof. intros H. unfold email_of_content. simpl. now rewrite H. Qed.

End ExtractionClaims.

(** C1.  Wrapper text around the object is discarded.  When, after the
    fence has been stripped, the text is [pre ++ "{" ++ mid ++ "}" ++ post]
    with no [{] in [pre] and no [}] in [post], the JSON candidate is exactly
    ["{" ++ mid ++ "}"], extraction gives the same result as on that clean
    text alone, and an object with truthy [subject], [preheader] and
    [htmlBody] is returned as the e-mail.  The same object inside a code
    fence, with an optional language tag, also gives the result of the
    clean text. *)
Theorem wrapper_text_is_discarded
        (rt : Runtime) (text pre mid post : jsstring) :
  ~ In lbrace pre ->
  ~ In rbrace post ->
  cleanup_stap1 text = pre ++ lbrace :: mid ++ rbrace :: post ->
  cleanup_stap2 (cleanup_stap1 text) = inr (lbrace :: mid ++ [rbrace])
  /\ email_of_content rt (JStr text)
     = email_of_content rt (JStr (lbrace :: mid ++ [rbrace]))
  /\ (forall email : JSValue,
         JSON_parse rt (lbrace :: mid ++ [rbrace]) = Some email ->
         complete email = true ->
         email_of_content rt (JStr text) = inr email)
  /\ (forall tag ws1 ws2 : jsstring,
         forallb isAsciiLetter tag = true ->
         forallb isWhiteSpace ws1 = true ->
         forallb isWhiteSpace ws2 = true ->
         email_of_content rt
           (JStr (fence ++ tag ++ ws1 ++ (lbrace :: mid ++ [rbrace])
                    ++ ws2 ++ fence))
         = email_of_content rt (JStr (lbrace :: mid ++ [rbrace]))).
Proof.
  intros Hpre Hpost Hclean.
  assert (Hslice : cleanup_stap2 (cleanup_stap1 text)
                   = inr (lbrace :: mid ++ [rbrace])).
  { rewrite Hclean. now apply cleanup_stap2_object. }
  assert (Halone : cleanup_stap2 (cleanup_stap1 (lbrace :: mid ++ [rbrace]))
                   = inr (lbrace :: mid ++ [rbrace])).
  { rewrite cleanup_stap1_object.
    apply (@cleanup_stap2_object [] mid []); intros []. }
  split; [assumption | split; [| split]].
  - now rewrite (email_of_content_slice rt _ Hslice),
                (email_of_content_slice rt _ Halone).
  - intros email Hparse Hcomplete.
    rewrite (email_of_content_slice rt _ Hslice).
    unfold parse_slice. rewrite Hparse. simpl.
    rewrite check_fields_spec by now apply complete_not_nullish.
    now rewrite Hcomplete.
  - intros tag ws1 ws2 Htag Hws1 Hws2.
    assert (Hfenced :
              cleanup_stap2
                (cleanup_stap1
                   (fence ++ tag ++ ws1 ++ (lbrace :: mid ++ [rbrace])
                      ++ ws2 ++ fence))
              = inr (lbrace :: mid ++ [rbrace])).
    { rewrite cleanup_stap1_fenced by assumption.
      apply (@cleanup_stap2_object [] mid []); intros []. }
    now rewrite (email_of_content_slice rt _ Hfenced),
                (email_of_content_slice rt _ Halone).
Qed.

Lemma wrapper_text_is_discarded_witness :
  email_of_content Reference.runtime (JStr Scenario.fenced_text)
  = inr Scenario.clean_email.
Proof.
  refine (proj1 (proj2 (proj2 (@wrapper_text_is_discarded Reference.runtime
                                 Scenario.fenced_text [] Scenario.clean_inner
                                 Scenario.remark _ _ _)))
                _ _ _).
  - intros [].
  - apply indexOf_absent. vm_compute. reflexivity.
  - vm_compute. reflexivity.
  - vm_compute. reflexivity.
  - vm_compute. reflexivity.
Defined.

(** C4.  A cleaned text with no [{], or with no [}], or whose last [}]
    comes before every [{], is rejected by the brace search itself with the
    error "OpenAI output bevat geen geldig JSON-object"; the result does not
    depend on [JSON.parse], which is not reached. *)
Theorem text_without_object_is_malformed (content : jsstring) :
  let cleaned := cleanup_stap1 content in
  (~ In lbrace cleaned
   \/ ~ In rbrace cleaned
   \/ exists a b : jsstring,
        cleaned = a ++ rbrace :: b /\ ~ In rbrace b /\ ~ In lbrace a) ->
  cleanup_stap2 cleaned = inl no_object_error
  /\ forall rt : Runtime,
       email_of_content rt (JStr content) = inl no_object_error.
Proof.
  intros cleaned H.
  assert (Hfail : cleanup_stap2 cleaned = inl no_object_error).
  { unfold cleanup_stap2.
    destruct H as [H | [H | (a & b & E & Hb & Ha)]].
    - apply indexOf_absent in H. now rewrite H.
    - apply lastIndexOf_absent in H. rewrite H.
      now rewrite orb_true_r.
    - assert (Hlast : lastIndexOf cleaned rbrace = Z.of_nat (List.length a)).
      { rewrite E. unfold lastIndexOf.
        now rewrite lastIndexOf_from_last. }
      assert (Hfirst : indexOf cleaned lbrace = -1
                       \/ Z.of_nat (List.length a) <= indexOf cleaned lbrace).
      { rewrite E. unfold indexOf. rewrite indexOf_from_skip by assumption.
        apply indexOf_from_range. }
      rewrite Hlast.
      destruct Hfirst as [-> | Hle]; [reflexivity |].
      destruct (Z.leb_spec (Z.of_nat (List.length a))
                           (indexOf cleaned lbrace)); [| lia].
      now rewrite !orb_true_r. }
  split; [assumption |].
  intros rt. unfold email_of_content. simpl.
  fold cleaned. now rewrite Hfail.
Qed.

Lemma text_without_object_is_malformed_witness :
  email_of_content Reference.runtime (JStr Scenario.apology)
  = inl no_object_error.
Proof.
  refine (proj2 (text_without_object_is_malformed Scenario.apology _)
                Reference.runtime).
  left. apply indexOf_absent. vm_compute. reflexivity.
Defined.

(** C8.  On the clean text
    [{"subject":"S","preheader":"P","htmlBody":"<html></html>"}] both
    clean-up steps are the identity, and extraction returns the object that
    [JSON.parse] reads from that text. *)
Theorem clean_json_is_unchanged (rt : Runtime) :
  JSON_parse rt Scenario.clean_text = Some Scenario.clean_email ->
  cleanup_stap1 Scenario.clean_text = Scenario.clean_text
  /\ cleanup_stap2 Scenario.clean_text = inr Scenario.clean_text
  /\ email_of_content rt (JStr Scenario.clean_text) = inr Scenario.clean_email.
Proof.
  intros Hparse.
  assert (H1 : cleanup_stap1 Scenario.clean_text = Scenario.clean_text)
    by apply cleanup_stap1_object.
  assert (H2 : cleanup_stap2 Scenario.clean_text = inr Scenario.clean_text)
    by (apply (@cleanup_stap2_object [] Scenario.clean_inner []); intros []).
  split; [assumption | split; [assumption |]].
  assert (H12 : cleanup_stap2 (cleanup_stap1 Scenario.clean_text)
                = inr Scenario.clean_text) by (rewrite H1; exact H2).
  rewrite (email_of_content_slice rt _ H12).
  unfold parse_slice. rewrite Hparse. reflexivity.
Qed.

Lemma clean_json_is_unchanged_witness :
  email_of_content Reference.runtime (JStr Scenario.clean_text)
  = inr Scenario.clean_email.
Proof.
  apply (clean_json_is_unchanged Reference.runtime).
  vm_compute. reflexivity.
Defined.

(* ================================================================= *)
(** * The token cache *)

Section TokenCache.

Variable rt : Runtime.
Variable env : ProcessEnv.
Variable up : Upstream.

(** [getMarketoAccessToken], branch by branch. *)
Lemma getMarketoAccessToken_unfold (st : State) :
  getMarketoAccessToken rt env up st
  = let now := Date_now up (sent st) in
    if truthy (marketoToken st)
       && js_lt (of_Z now) (marketoTokenExpiresAt st)
    then (inr (marketoToken st), st)
    else
      let st1 := with_sent st ((token_request rt env) :: sent st) in
      match respond up (sent st) (token_request rt env) with
      | None => (inl (Builtin (FetchFailed (url (token_request rt env)))), st1)
      | Some res =>
        if ok res
        then
          match JSON_parse rt (payload res) with
          | None => (inl (Builtin (BadJSON (payload res))), st1)
          | Some data =>
            if nullish data
            then (inl (Builtin (ReadOfNullish data (str "access_token"))),
                  st1)
            else
              let token := get_prop data (str "access_token") in
              match ToNumber rt (get_prop data (str "expires_in")) with
              | inl e =>
                (inl e, {| marketoToken := token;
                           marketoTokenExpiresAt := marketoTokenExpiresAt st;
                           sent := (token_request rt env) :: sent st |})
              | inr n =>
                (inr token, {| marketoToken := token;
                               marketoTokenExpiresAt := expiry now n;
                               sent := (token_request rt env) :: sent st |})
              end
          end
        else (inl token_error, st1)
      end.
Proof.
  unfold getMarketoAccessToken, bind, Date_now_, get_state, ret. simpl.
  destruct (truthy (marketoToken st)
            && js_lt (of_Z (Date_now up (sent st)))
                     (marketoTokenExpiresAt st)); [reflexivity |].
  unfold fetch.
  destruct (respond up (sent st) (token_request rt env)) as [res |]; [| reflexivity].
  destruct (ok res); simpl; [| reflexivity].
  unfold lift, res_json.
  destruct (JSON_parse rt (payload res)) as [data |]; [| reflexivity].
  unfold member. destruct (nullish data); [reflexivity |].
  unfold set_marketoToken. simpl.
  destruct (ToNumber rt (get_prop data (str "expires_in")));
    reflexivity.
Qed.

Lemma exchange_sent (st : State) :
  truthy (marketoToken st)
  && js_lt (of_Z (Date_now up (sent st))) (marketoTokenExpiresAt st) = false ->
  sent (snd (getMarketoAccessToken rt env up st)) = (token_request rt env) :: sent st.
Proof.
  intros Hguard. rewrite getMarketoAccessToken_unfold. cbv zeta.
  rewrite Hguard.
  destruct (respond up (sent st) (token_request rt env)) as [res |]; [| reflexivity].
  destruct (ok res); [| reflexivity].
  destruct (JSON_parse rt (payload res)) as [data |]; [| reflexivity].
  destruct (nullish data); [reflexivity |].
  destruct (ToNumber rt (get_prop data (str "expires_in"))); reflexivity.
Qed.

(** Whatever its outcome, a call sends at most the token (token_request rt env). *)
Lemma getMarketoAccessToken_sent (st : State) :
  let st' := snd (getMarketoAccessToken rt env up st) in
  sent st' = sent st \/ sent st' = (token_request rt env) :: sent st.
Proof.
  cbv zeta.
  destruct (truthy (marketoToken st)
            && js_lt (of_Z (Date_now up (sent st)))
                     (marketoTokenExpiresAt st)) eqn:Hguard.
  - left. rewrite getMarketoAccessToken_unfold. cbv zeta.
    now rewrite Hguard.
  - right. now apply exchange_sent.
Qed.

End TokenCache.

Lemma cons_neq {A} (x : A) (l : list A) : x :: l <> l.
Proof.
  intros E. apply (f_equal (@List.length A)) in E. simpl in E. lia.
Qed.

(** Time does not restore an expired token. *)
Lemma js_lt_later (a b : Z) (e : number) :
  a <= b -> js_lt (of_Z a) e = false -> js_lt (of_Z b) e = false.
Proof.
  intros Hab. unfold js_lt, of_Z. destruct e as [q |]; [| reflexivity].
  rewrite Zle_Qle in Hab. rewrite !negb_false_iff, !Qle_bool_iff.
  intros H. lra.
Qed.

(** C2.  A call made while a token is cached and the clock is strictly
    before [marketoTokenExpiresAt] returns the cached token and sends
    nothing.  A call made with no token cached, or at or after the expiry,
    sends exactly one request, the token exchange; when that exchange
    succeeds the returned token and the new expiry are stored.  Hence a
    token handed out without an exchange always has a positive remaining
    lifetime. *)
Theorem token_cache_refresh_policy
        (rt : Runtime) (env : ProcessEnv) (up : Upstream) (st : State) :
  let now := Date_now up (sent st) in
  let r := getMarketoAccessToken rt env up st in
  (truthy (marketoToken st) = true ->
   js_lt (of_Z now) (marketoTokenExpiresAt st) = true ->
   r = (inr (marketoToken st), st))
  /\ (truthy (marketoToken st) = false
      \/ js_lt (of_Z now) (marketoTokenExpiresAt st) = false ->
      sent (snd r) = token_request rt env :: sent st
      /\ forall (res : Response) (data : JSValue) (n : number),
          respond up (sent st) (token_request rt env) = Some res ->
          ok res = true ->
          JSON_parse rt (payload res) = Some data ->
          nullish data = false ->
          ToNumber rt (get_prop data (str "expires_in")) = inr n ->
          r = (inr (get_prop data (str "access_token")),
               {| marketoToken := get_prop data (str "access_token");
                  marketoTokenExpiresAt := expiry now n;
                  sent := token_request rt env :: sent st |}))
  /\ (forall token : JSValue,
         fst r = inr token ->
         sent (snd r) = sent st ->
         token = marketoToken st
         /\ js_lt (of_Z now) (marketoTokenExpiresAt st) = true).
Proof.
  intros now r. split; [| split].
  - intros Htoken Hlt. unfold r.
    rewrite getMarketoAccessToken_unfold. cbv zeta.
    fold now. now rewrite Htoken, Hlt.
  - intros Hstale.
    assert (Hguard : truthy (marketoToken st)
                     && js_lt (of_Z now) (marketoTokenExpiresAt st) = false).
    { destruct Hstale as [-> | ->]; [reflexivity | apply andb_false_r]. }
    split.
    + now apply exchange_sent.
    + intros res data n Hres Hok Hparse Hnull Hnum. unfold r.
      rewrite getMarketoAccessToken_unfold. cbv zeta. fold now.
      now rewrite Hguard, Hres, Hok, Hparse, Hnull, Hnum.
  - intros token Hret Hquiet.
    destruct (truthy (marketoToken st)
              && js_lt (of_Z now) (marketoTokenExpiresAt st)) eqn:Hguard.
    + apply andb_prop in Hguard as [Htoken Hlt]. split; [| assumption].
      unfold r in Hret. rewrite getMarketoAccessToken_unfold in Hret.
      cbv zeta in Hret. fold now in Hret. rewrite Htoken, Hlt in Hret.
      simpl in Hret. congruence.
    + exfalso. unfold r in Hquiet.
      rewrite (exchange_sent rt env up st Hguard) in Hquiet.
      now apply cons_neq in Hquiet.
Qed.

Lemma token_cache_refresh_policy_witness :
  let up := Scenario.upstream 2000 Scenario.token_ok
              (Scenario.completion JNull) Scenario.leads_ok in
  getMarketoAccessToken Reference.runtime Scenario.env up Scenario.fresh
  = (inr (JStr (str "tok-0")), Scenario.fresh)
  /\ sent (snd (getMarketoAccessToken Reference.runtime Scenario.env up
                                      Scenario.stale))
     = [token_request Reference.runtime Scenario.env].
Proof.
  intros up. split.
  - apply (proj1 (token_cache_refresh_policy Reference.runtime Scenario.env
                    up Scenario.fresh)); vm_compute; reflexivity.
  - apply (proj1 (proj2 (token_cache_refresh_policy Reference.runtime
                           Scenario.env up Scenario.stale))).
    right. vm_compute. reflexivity.
Defined.



(** C9.  When the token exchange is answered with a non-success status,
    [getMarketoAccessToken] throws "Failed to get Marketo access token" and
    both cache variables keep their values; the old token is not cleared,
    so the next call, made no earlier, sends a token request again. *)
Theorem failed_refresh_keeps_cache
        (rt : Runtime) (env : ProcessEnv) (up : Upstream) (st : State)
        (res : Response) :
  truthy (marketoToken st)
  && js_lt (of_Z (Date_now up (sent st))) (marketoTokenExpiresAt st) = false ->
  respond up (sent st) (token_request rt env) = Some res ->
  ok res = false ->
  let r := getMarketoAccessToken rt env up st in
  fst r = inl token_error
  /\ marketoToken (snd r) = marketoToken st
  /\ marketoTokenExpiresAt (snd r) = marketoTokenExpiresAt st
  /\ sent (snd r) = token_request rt env :: sent st
  /\ (Date_now up (sent st) <= Date_now up (sent (snd r)) ->
      sent (snd (getMarketoAccessToken rt env up (snd r)))
      = token_request rt env :: sent (snd r)).
Proof.
  intros Hguard Hres Hok r.
  assert (Hr : r = (inl token_error,
                    with_sent st (token_request rt env :: sent st))).
  { unfold r. rewrite getMarketoAccessToken_unfold. cbv zeta.
    now rewrite Hguard, Hres, Hok. }
  rewrite Hr. simpl. repeat split.
  intros Hclock. apply exchange_sent. simpl.
  apply andb_false_iff in Hguard as [Htoken | Hlt].
  - now rewrite Htoken.
  - rewrite (js_lt_later _ Hclock Hlt). apply andb_false_r.
Qed.

Lemma failed_refresh_keeps_cache_witness :
  let up := Scenario.upstream 2000 Scenario.token_denied
              (Scenario.completion JNull) Scenario.leads_ok in
  let r := getMarketoAccessToken Reference.runtime Scenario.env up
                                 Scenario.stale in
  fst r = inl token_error
  /\ marketoToken (snd r) = JStr (str "tok-0")
  /\ marketoTokenExpiresAt (snd r) = Num 1000.
Proof.
  intros up r.
  destruct (@failed_refresh_keeps_cache Reference.runtime Scenario.env up
              Scenario.stale Scenario.token_denied)
    as (H1 & H2 & H3 & _); try (vm_compute; reflexivity).
  repeat split; assumption.
Defined.

(* ================================================================= *)
(** * The three asynchronous functions, branch by branch *)

Section Unfolding.

Variable rt : Runtime.
Variable env : ProcessEnv.
Variable up : Upstream.

Lemma bind_lift {A B} (r : result A) (k : A -> M B) (st : State) :
  bind (lift r) k st
  = match r with inl e => (inl e, st) | inr a => k a st end.
Proof. unfold bind, lift. now destruct r. Qed.

Lemma bind_lift_lift {A B} (r : result A) (k : A -> result B) (st : State) :
  bind (lift r) (fun a => lift (k a)) st = (rbind r k, st).
Proof. unfold bind, lift, rbind. now destruct r. Qed.

Lemma fetch_content_unfold (a : LeadArgs) (st : State) :
  fetch_content rt env up a st
  = match ToString rt (baseDataId a) with
    | inl e => (inl e, st)
    | inr key =>
      match BASE_DATA rt key with
      | None => (inl (unknown_base_error key), st)
      | Some base =>
        match buildUserPrompt rt (defaulted a) base with
        | inl e => (inl e, st)
        | inr userPrompt =>
          let req := chat_request rt env
                       (buildSystemPrompt (language (defaulted a)))
                       userPrompt in
          let st1 := with_sent st (req :: sent st) in
          match respond up (sent st) req with
          | None => (inl (Builtin (FetchFailed (url req))), st1)
          | Some res =>
            if ok res then (content_of rt res, st1)
            else (inl openai_error, st1)
          end
        end
      end
    end.
Proof.
  unfold fetch_content. fold (defaulted a).
  change (baseDataId (defaulted a)) with (baseDataId a).
  rewrite bind_lift.
  destruct (ToString rt (baseDataId a)) as [e | key]; [reflexivity |].
  destruct (BASE_DATA rt key) as [base |]; [| reflexivity].
  rewrite bind_lift.
  destruct (buildUserPrompt rt (defaulted a) base) as [e | userPrompt];
    [reflexivity |].
  cbv zeta. unfold bind at 1. unfold fetch at 1.
  destruct (respond up (sent st) _) as [res |]; [| reflexivity].
  destruct (ok res); [| reflexivity].
  cbn [negb]. cbv iota.
  unfold content_of, bind, lift, rbind.
  destruct (res_json rt res) as [e | data]; [reflexivity |].
  destruct (member data (str "choices")) as [e | choices]; [reflexivity |].
  destruct (member0 choices) as [e | choice]; [reflexivity |].
  destruct (member choice (str "message")) as [e | message];
    reflexivity.
Qed.

Lemma generateEmailWithAI_unfold (a : LeadArgs) (st : State) :
  generateEmailWithAI rt env up a st
  = match fetch_content rt env up a st with
    | (inl e, st') => (inl e, st')
    | (inr content, st') => (email_of_content rt content, st')
    end.
Proof. reflexivity. Qed.

Lemma updateMarketoLead_unfold
      (marketoLeadId : JSValue) (fields : properties) (st : State) :
  updateMarketoLead rt env up marketoLeadId fields st
  = match getMarketoAccessToken rt env up st with
    | (inl e, st1) => (inl e, st1)
    | (inr token, st1) =>
      match ToString rt token with
      | inl e => (inl e, st1)
      | inr token =>
        let req := update_request rt env token marketoLeadId fields in
        let st2 := with_sent st1 (req :: sent st1) in
        match respond up (sent st1) req with
        | None => (inl (Builtin (FetchFailed (url req))), st2)
        | Some res =>
          match JSON_parse rt (payload res) with
          | None => (inl (Builtin (BadJSON (payload res))), st2)
          | Some data =>
            if negb (ok res) || truthy (errors_length data)
            then (inl update_error, st2)
            else (inr data, st2)
          end
        end
      end
    end.
Proof.
  unfold updateMarketoLead. unfold bind at 1.
  destruct (getMarketoAccessToken rt env up st) as [[e | token] st1];
    [reflexivity |].
  rewrite bind_lift.
  destruct (ToString rt token) as [e | token']; [reflexivity |].
  cbv zeta. unfold bind at 1. unfold fetch at 1.
  destruct (respond up (sent st1) _) as [res |]; [| reflexivity].
  rewrite bind_lift. unfold res_json.
  destruct (JSON_parse rt (payload res)) as [data |]; [| reflexivity].
  destruct (negb (ok res) || truthy (errors_length data)); reflexivity.
Qed.

Lemma post_webhooks_ai_email_unfold (req : WebhookRequest) (st : State) :
  post_webhooks_ai_email rt env up req st
  = let body := req_body req in
    let marketoLeadId := get_prop body (str "marketoLeadId") in
    if unauthorized env req
    then (error_reply 401 (JStr (str "Unauthorized")), st)
    else if nullish body
    then (server_error rt (Builtin (ReadOfNullish body (str "email"))), st)
    else if truthy marketoLeadId
    then
      match generateEmailWithAI rt env up (handler_args body) st with
      | (inl e, st1) => (server_error rt e, st1)
      | (inr aiEmail, st1) =>
        match updateMarketoLead rt env up marketoLeadId
                (fieldsToUpdate aiEmail (request_language body)) st1 with
        | (inl e, st2) => (server_error rt e, st2)
        | (inr mktoResponse, st2) =>
          (success_reply aiEmail mktoResponse, st2)
        end
      end
    else (error_reply 400 (JStr (str "marketoLeadId is verplicht")), st).
Proof.
  unfold post_webhooks_ai_email, ai_email_try. cbv zeta.
  destruct (unauthorized env req); [reflexivity |].
  rewrite bind_lift. unfold member.
  destruct (nullish (req_body req)); [reflexivity |].
  destruct (truthy (get_prop (req_body req) (str "marketoLeadId")));
    [| reflexivity].
  cbn [negb]. cbv iota. fold (handler_args (req_body req)).
  unfold bind at 1.
  destruct (generateEmailWithAI rt env up (handler_args (req_body req)) st)
    as [[e | aiEmail] st1]; [reflexivity |].
  unfold bind.
  destruct (updateMarketoLead rt env up _ _ st1) as [[e | mkto] st2];
    reflexivity.
Qed.

End Unfolding.

(* ================================================================= *)
(** * The lead update *)

Section LeadUpdate.

Lemma truthy_length (n : nat) :
  truthy (JNum (inject_Z (Z.of_nat n)))
  = match n with O => false | S _ => true end.
Proof. now destruct n. Qed.

Lemma errors_length_array (data : JSValue) (errs : list JSValue) :
  get_prop data (str "errors") = JArr errs ->
  truthy (errors_length data)
  = match errs with [] => false | _ :: _ => true end.
Proof.
  intros H. unfold errors_length, js_and. rewrite H.
  assert (Hdata : truthy data = true).
  { destruct data; try reflexivity; simpl in H;
      try discriminate H;
      match type of H with
      | (if ?c then _ else _) = _ => destruct c; discriminate H
      end. }
  rewrite Hdata. simpl truthy at 1. cbv iota.
  change (get_prop (JArr errs) (str "length"))
    with (JNum (inject_Z (Z.of_nat (List.length errs)))).
  fold (truthy (JNum (inject_Z (Z.of_nat (List.length errs))))).
  rewrite truthy_length. now destruct errs.
Qed.

Lemma errors_length_absent (data : JSValue) :
  get_prop data (str "errors") = JUndefined ->
  truthy (errors_length data) = false.
Proof.
  intros H. unfold errors_length, js_and. rewrite H. simpl truthy at 2.
  cbv iota. now destruct (truthy data) eqn:E.
Qed.

End LeadUpdate.

(** C3 (as amended).  Once the access token has been obtained and the
    update request has been answered with a body that parses as JSON,
    [updateMarketoLead] throws "Failed to update Marketo lead" exactly when
    the status is not a success or [data.errors.length] is truthy, which for
    an [errors] array means that it is not empty; so an HTTP 200 answer
    with a non-empty [errors] array is a failure.  Otherwise it returns the
    parsed body. *)
Theorem update_fails_on_status_or_errors
        (rt : Runtime) (env : ProcessEnv) (up : Upstream)
        (marketoLeadId : JSValue) (fields : properties) (st st1 : State)
        (token : JSValue) (bearer : jsstring)
        (res : Response) (data : JSValue) :
  getMarketoAccessToken rt env up st = (inr token, st1) ->
  ToString rt token = inr bearer ->
  respond up (sent st1) (update_request rt env bearer marketoLeadId fields)
  = Some res ->
  JSON_parse rt (payload res) = Some data ->
  let r := fst (updateMarketoLead rt env up marketoLeadId fields st) in
  (r = inl update_error
   <-> ok res = false \/ truthy (errors_length data) = true)
  /\ (r <> inl update_error -> r = inr data)
  /\ (forall errs : list JSValue,
         get_prop data (str "errors") = JArr errs ->
         (truthy (errors_length data) = true <-> errs <> []))
  /\ (get_prop data (str "errors") = JUndefined ->
      truthy (errors_length data) = false)
  /\ (forall (e : JSValue) (errs : list JSValue),
         status res = 200 ->
         get_prop data (str "errors") = JArr (e :: errs) ->
         r = inl update_error).
Proof.
  intros Htoken Hbearer Hres Hparse r.
  assert (Hr : r = if negb (ok res) || truthy (errors_length data)
                   then inl update_error else inr data).
  { unfold r. rewrite updateMarketoLead_unfold, Htoken, Hbearer. cbv zeta.
    rewrite Hres, Hparse.
    now destruct (negb (ok res) || truthy (errors_length data)). }
  split; [| split; [| split; [| split]]].
  - rewrite Hr. destruct (ok res), (truthy (errors_length data)); simpl;
      split; intros H; try reflexivity; try discriminate H;
        try (now left); try (now right).
    destruct H as [H | H]; discriminate H.
  - rewrite Hr. destruct (negb (ok res) || truthy (errors_length data));
      [intros H; now elim H | reflexivity].
  - intros errs Herrs. rewrite (errors_length_array _ Herrs).
    destruct errs; split; intros H; try reflexivity; try discriminate H;
      try (now elim H).
  - apply errors_length_absent.
  - intros e errs _ Herrs. rewrite Hr, (errors_length_array _ Herrs).
    now rewrite orb_true_r.
Qed.

Lemma update_fails_on_status_or_errors_witness :
  let up := Scenario.upstream 2000 Scenario.token_ok
              (Scenario.completion JNull) Scenario.leads_errors in
  status Scenario.leads_errors = 200
  /\ fst (updateMarketoLead Reference.runtime Scenario.env up
            (JStr (str "42")) [] Scenario.fresh)
     = inl update_error.
Proof.
  intros up. split; [reflexivity |].
  refine (proj2 (proj2 (proj2 (proj2
            (@update_fails_on_status_or_errors Reference.runtime Scenario.env
               up (JStr (str "42")) [] Scenario.fresh Scenario.fresh
               (JStr (str "tok-0")) (str "tok-0") Scenario.leads_errors
               (JObj [ (str "requestId", JStr (str "e42b#14272d07d78"));
                       (str "success", JBool false);
                       (str "errors",
                        JArr [ JObj [ (str "code", JStr (str "1004"));
                                      (str "message",
                                       JStr (str "Lead not found")) ] ]) ])
               _ _ _ _))))
            _ _ _ _);
    vm_compute; reflexivity.
Defined.

(** C3 (as stated) fails: a non-success answer whose body is not JSON makes
    [updateMarketoLead] throw the parse error of [res.json()], not the
    update error. *)
Lemma update_error_not_raised_for_unparsable_body :
  let up := Scenario.upstream 2000 Scenario.token_ok
              (Scenario.completion JNull) Scenario.leads_bad_gateway in
  let r := fst (updateMarketoLead Reference.runtime Scenario.env up
                  (JStr (str "42")) [] Scenario.fresh) in
  ok Scenario.leads_bad_gateway = false
  /\ r = inl (Builtin (BadJSON (payload Scenario.leads_bad_gateway)))
  /\ r <> inl update_error.
Proof.
  intros up r.
  assert (Hr : r = inl (Builtin (BadJSON (payload Scenario.leads_bad_gateway))))
    by (vm_compute; reflexivity).
  split; [reflexivity | split; [assumption |]].
  rewrite Hr. discriminate.
Qed.

(* ================================================================= *)
(** * Validation of the generated e-mail *)

Section Validation.

Variable rt : Runtime.
Variable env : ProcessEnv.
Variable up : Upstream.

Lemma check_fields_inv (parsed email : JSValue) :
  check_fields parsed = inr email ->
  email = parsed /\ complete parsed = true.
Proof.
  destruct (nullish parsed) eqn:Hn.
  - unfold check_fields, member. rewrite Hn. discriminate.
  - rewrite check_fields_spec by assumption.
    destruct (complete parsed); [| discriminate].
    intros H. injection H as <-. now split.
Qed.

Lemma email_of_content_inv (content email : JSValue) :
  email_of_content rt content = inr email -> complete email = true.
Proof.
  unfold email_of_content.
  destruct (string_receiver content (str "trim")) as [e | text];
    [discriminate |].
  simpl rbind at 1.
  destruct (cleanup_stap2 (cleanup_stap1 text)) as [e | jsonSlice];
    [discriminate |].
  simpl rbind at 1.
  destruct (parse_slice rt jsonSlice) as [e | parsed]; [discriminate |].
  simpl. intros H. apply check_fields_inv in H as [-> H]. exact H.
Qed.

(** [generateEmailWithAI] only returns e-mails that passed the check. *)
Lemma generateEmailWithAI_complete
      (a : LeadArgs) (st st' : State) (email : JSValue) :
  generateEmailWithAI rt env up a st = (inr email, st') ->
  complete email = true.
Proof.
  rewrite generateEmailWithAI_unfold.
  destruct (fetch_content rt env up a st) as [[e | content] st1];
    [discriminate |].
  intros H. injection H as H _. now apply email_of_content_inv in H.
Qed.

Lemma absent_or_empty_is_incomplete (props : properties) (k : jsstring) :
  In k [str "subject"; str "preheader"; str "htmlBody"] ->
  lookup props k = None \/ lookup props k = Some (JStr []) ->
  complete (JObj props) = false.
Proof.
  intros Hk Hv.
  assert (Hfalsy : truthy (get_prop (JObj props) k) = false).
  { simpl. now destruct Hv as [-> | ->]. }
  unfold complete.
  destruct Hk as [<- | [<- | [<- | []]]]; rewrite Hfalsy.
  - reflexivity.
  - apply andb_false_iff. left. apply andb_false_r.
  - apply andb_false_r.
Qed.

End Validation.

(** C5.  When the model's text yields a JSON candidate that parses to an
    object, [generateEmailWithAI] returns that object if [subject],
    [preheader] and [htmlBody] are all truthy, and otherwise throws "OpenAI
    JSON mist subject/preheader/htmlBody"; a field that is absent or the
    empty string makes the object incomplete. *)
Theorem incomplete_email_is_rejected
        (rt : Runtime) (env : ProcessEnv) (up : Upstream)
        (a : LeadArgs) (st st' : State)
        (content jsonSlice : jsstring) (props : properties) :
  fetch_content rt env up a st = (inr (JStr content), st') ->
  cleanup_stap2 (cleanup_stap1 content) = inr jsonSlice ->
  JSON_parse rt jsonSlice = Some (JObj props) ->
  let parsed := JObj props in
  generateEmailWithAI rt env up a st
  = (if complete parsed then inr parsed else inl missing_fields_error, st')
  /\ (forall k : jsstring,
         In k [str "subject"; str "preheader"; str "htmlBody"] ->
         lookup props k = None \/ lookup props k = Some (JStr []) ->
         generateEmailWithAI rt env up a st = (inl missing_fields_error, st')).
Proof.
  intros Hcontent Hslice Hparse parsed.
  assert (Hgen : generateEmailWithAI rt env up a st
                 = (if complete parsed then inr parsed
                    else inl missing_fields_error, st')).
  { rewrite generateEmailWithAI_unfold, Hcontent.
    rewrite (email_of_content_slice rt _ Hslice).
    unfold parse_slice. rewrite Hparse. simpl rbind.
    now rewrite check_fields_spec. }
  split; [assumption |].
  intros k Hk Hv. rewrite Hgen.
  unfold parsed. now rewrite (@absent_or_empty_is_incomplete props k Hk Hv).
Qed.

Lemma incomplete_email_is_rejected_witness :
  let up := Scenario.upstream 2000 Scenario.token_ok
              (Scenario.completion (JStr Scenario.empty_preheader))
              Scenario.leads_ok in
  fst (generateEmailWithAI Reference.runtime Scenario.env up
                           Scenario.args_nl initial_state)
  = inl missing_fields_error.
Proof.
  intros up.
  pose proof
       (proj2 (@incomplete_email_is_rejected Reference.runtime Scenario.env up
                 Scenario.args_nl initial_state
                 (snd (fetch_content Reference.runtime Scenario.env up
                                     Scenario.args_nl initial_state))
                 Scenario.empty_preheader Scenario.empty_preheader
                 [ (str "subject", JStr (str "S"));
                   (str "preheader", JStr []);
                   (str "htmlBody", JStr (str "<html></html>")) ]
                 ltac:(vm_compute; reflexivity)
                 ltac:(vm_compute; reflexivity)
                 ltac:(vm_compute; reflexivity))
              (str "preheader")
              ltac:(right; left; reflexivity)
              ltac:(right; reflexivity)) as H.
  now rewrite H.
Defined.

(* ================================================================= *)
(** * The requests a call sends *)

Section Traces.

Variable rt : Runtime.
Variable env : ProcessEnv.
Variable up : Upstream.

Lemma chat_url_not_leads_url : chat_url <> leads_url env.
Proof.
  intros E. apply (f_equal (fun l => last l 0%N)) in E.
  unfold leads_url in E.
  change (str "/rest/v1/leads.json")
    with (str "/rest/v1/leads.jso" ++ [110%N]) in E.
  rewrite app_assoc, last_last in E.
  vm_compute in E. discriminate E.
Qed.

Lemma token_url_not_leads_url : token_url rt env <> leads_url env.
Proof.
  unfold token_url, leads_url. intros E. apply app_inv_head in E.
  apply (f_equal (fun l => nth 1 l 0%N)) in E.
  vm_compute in E. discriminate E.
Qed.

Lemma chat_request_not_lead (systemPrompt userPrompt : jsstring) :
  url (chat_request rt env systemPrompt userPrompt) <> leads_url env.
Proof. exact chat_url_not_leads_url. Qed.

Lemma token_request_not_lead :
  url (token_request rt env) <> leads_url env.
Proof. exact token_url_not_leads_url. Qed.

Lemma token_trace (st : State) (r : Request) :
  In r (sent (snd (getMarketoAccessToken rt env up st))) ->
  In r (sent st) \/ r = token_request rt env.
Proof.
  destruct (getMarketoAccessToken_sent rt env up st) as [E | E];
    rewrite E; simpl; intuition.
Qed.

Lemma update_trace
      (marketoLeadId : JSValue) (fields : properties) (st : State)
      (r : Request) :
  In r (sent (snd (updateMarketoLead rt env up marketoLeadId fields st))) ->
  In r (sent st)
  \/ r = token_request rt env
  \/ exists token : jsstring,
      r = update_request rt env token marketoLeadId fields.
Proof.
  rewrite updateMarketoLead_unfold.
  pose proof (token_trace st r) as Htoken.
  destruct (getMarketoAccessToken rt env up st) as [[e | token] st1];
    simpl in Htoken |- *.
  - intros H. apply Htoken in H. tauto.
  - assert (Hcons : In r (update_request rt env
                            match ToString rt token with
                            | inr t => t | inl _ => []
                            end marketoLeadId fields :: sent st1) ->
                    In r (sent st)
                    \/ r = token_request rt env
                    \/ exists t : jsstring,
                        r = update_request rt env t marketoLeadId fields).
    { intros [<- | H]; [right; right; eauto | apply Htoken in H; tauto]. }
    destruct (ToString rt token) as [e | bearer];
      [simpl; intros H; apply Htoken in H; tauto |].
    cbv zeta.
    destruct (respond up (sent st1) _) as [res |]; [| exact Hcons].
    destruct (JSON_parse rt (payload res)) as [data |]; [| exact Hcons].
    destruct (negb (ok res) || truthy (errors_length data)); exact Hcons.
Qed.

Lemma generate_trace (a : LeadArgs) (st : State) (r : Request) :
  In r (sent (snd (generateEmailWithAI rt env up a st))) ->
  In r (sent st)
  \/ exists (base : base_entry) (userPrompt : jsstring),
      buildUserPrompt rt (defaulted a) base = inr userPrompt
      /\ r = chat_request rt env
               (buildSystemPrompt (language (defaulted a))) userPrompt.
Proof.
  rewrite generateEmailWithAI_unfold, fetch_content_unfold.
  destruct (ToString rt (baseDataId a)) as [e | key]; [simpl; tauto |].
  destruct (BASE_DATA rt key) as [base |]; [| simpl; tauto].
  destruct (buildUserPrompt rt (defaulted a) base) as [e | userPrompt] eqn:Hp;
    [simpl; tauto |].
  cbv zeta.
  assert (Hcons : In r (chat_request rt env
                          (buildSystemPrompt (language (defaulted a)))
                          userPrompt :: sent st) ->
                  In r (sent st)
                  \/ exists (base : base_entry) (userPrompt : jsstring),
                      buildUserPrompt rt (defaulted a) base = inr userPrompt
                      /\ r = chat_request rt env
                               (buildSystemPrompt (language (defaulted a)))
                               userPrompt).
  { intros [<- | H]; [right; eauto | tauto]. }
  destruct (respond up (sent st) _) as [res |]; [| exact Hcons].
  destruct (ok res); [| exact Hcons].
  destruct (content_of rt res); exact Hcons.
Qed.

(** Every request sent while a webhook is handled is the token request, the
    chat request carrying the two prompts, or the update request carrying
    the fields of an e-mail that passed the check. *)
Lemma handler_trace (req : WebhookRequest) (st : State) (r : Request) :
  let body := req_body req in
  let a := defaulted (handler_args body) in
  In r (sent (snd (post_webhooks_ai_email rt env up req st))) ->
  In r (sent st)
  \/ r = token_request rt env
  \/ (exists (base : base_entry) (userPrompt : jsstring),
         buildUserPrompt rt a base = inr userPrompt
         /\ r = chat_request rt env (buildSystemPrompt (language a))
                  userPrompt)
  \/ (exists (aiEmail : JSValue) (token : jsstring),
         complete aiEmail = true
         /\ r = update_request rt env token
                  (get_prop body (str "marketoLeadId"))
                  (fieldsToUpdate aiEmail (request_language body))).
Proof.
  intros body a. rewrite post_webhooks_ai_email_unfold. cbv zeta.
  destruct (unauthorized env req); [simpl; tauto |].
  destruct (nullish (req_body req)); [simpl; tauto |].
  destruct (truthy (get_prop (req_body req) (str "marketoLeadId")));
    [| simpl; tauto].
  pose proof (generate_trace (handler_args (req_body req)) st r) as Hgen.
  pose proof (@generateEmailWithAI_complete rt env up
                (handler_args (req_body req)) st) as Hcomplete.
  destruct (generateEmailWithAI rt env up (handler_args (req_body req)) st)
    as [[e | aiEmail] st1]; simpl in Hgen.
  - simpl. intros H. apply Hgen in H. fold body a in H. tauto.
  - specialize (Hcomplete st1 aiEmail eq_refl).
    pose proof (update_trace
                  (get_prop (req_body req) (str "marketoLeadId"))
                  (fieldsToUpdate aiEmail (request_language (req_body req)))
                  st1 r) as Hupd.
    destruct (updateMarketoLead rt env up _ _ st1) as [[e | mkto] st2];
      simpl in Hupd |- *; intros H; apply Hupd in H;
        (destruct H as [H | [H | [token H]]];
         [apply Hgen in H; fold body a in H; tauto
         | tauto
         | right; right; right; exists aiEmail, token; now split]).
Qed.

End Traces.

(* ================================================================= *)
(** * The webhook handler *)

(** C7 (as amended).  Every webhook request ends in the success envelope,
    after [generateEmailWithAI] and then [updateMarketoLead] have both
    returned, or in an error reply (401, 400 or 500).  When the generation
    fails, no request is sent to the lead endpoint; when the request is
    rejected up front (no access, no body, no lead identifier) nothing is
    sent at all.  A request with a parsed body and no lead identifier gets
    a client error.  Every request sent to the lead endpoint carries the
    fields of an e-mail whose [subject], [preheader] and [htmlBody] are all
    truthy. *)
Theorem webhook_outcomes
        (rt : Runtime) (env : ProcessEnv) (up : Upstream)
        (req : WebhookRequest) (st : State) :
  let body := req_body req in
  let marketoLeadId := get_prop body (str "marketoLeadId") in
  let language := request_language body in
  let out := post_webhooks_ai_email rt env up req st in
  ((exists (aiEmail mktoResponse : JSValue) (st1 : State),
       generateEmailWithAI rt env up (handler_args body) st
       = (inr aiEmail, st1)
       /\ updateMarketoLead rt env up marketoLeadId
            (fieldsToUpdate aiEmail language) st1
          = (inr mktoResponse, snd out)
       /\ fst out = success_reply aiEmail mktoResponse)
   \/ (exists (code : Z) (message : JSValue),
          fst out = error_reply code message
          /\ (code = 401 \/ code = 400 \/ code = 500)))
  /\ (forall (e : exn) (st1 : State),
         generateEmailWithAI rt env up (handler_args body) st = (inl e, st1) ->
         forall r : Request,
           In r (sent (snd out)) -> url r = leads_url env -> In r (sent st))
  /\ (unauthorized env req = true
      \/ nullish body = true
      \/ truthy marketoLeadId = false ->
      snd out = st)
  /\ (nullish body = false ->
      truthy marketoLeadId = false ->
      fst out = error_reply 401 (JStr (str "Unauthorized"))
      \/ fst out = error_reply 400 (JStr (str "marketoLeadId is verplicht")))
  /\ (forall r : Request,
         In r (sent (snd out)) ->
         url r = leads_url env ->
         In r (sent st)
         \/ exists (aiEmail : JSValue) (token : jsstring),
             complete aiEmail = true
             /\ r = update_request rt env token marketoLeadId
                      (fieldsToUpdate aiEmail language)).
Proof.
  intros body marketoLeadId language out.
  split; [| split; [| split; [| split]]].
  - unfold out. rewrite post_webhooks_ai_email_unfold. cbv zeta.
    fold body marketoLeadId language.
    destruct (unauthorized env req); [right; cbn [fst snd]; eauto |].
    destruct (nullish body); [right; cbn [fst snd]; unfold server_error; eauto 6 |].
    destruct (truthy marketoLeadId); [| right; cbn [fst snd]; eauto 6].
    destruct (generateEmailWithAI rt env up (handler_args body) st)
      as [[e | aiEmail] st1];
      [right; cbn [fst snd]; unfold server_error; eauto 6 |].
    destruct (updateMarketoLead rt env up marketoLeadId
                (fieldsToUpdate aiEmail language) st1)
      as [[e | mkto] st2] eqn:Hupd;
      [right; cbn [fst snd]; unfold server_error; eauto 6 |].
    left. exists aiEmail, mkto, st1. cbn [fst snd]. now rewrite Hupd.
  - intros e st1 Hgen r Hin Hurl.
    pose proof (generate_trace rt env up (handler_args body) st r) as Htrace.
    rewrite Hgen in Htrace. cbn [fst snd] in Htrace.
    assert (Hst : sent (snd out) = sent st \/ snd out = st1).
    { unfold out. rewrite post_webhooks_ai_email_unfold. cbv zeta.
      fold body marketoLeadId.
      destruct (unauthorized env req); [now left |].
      destruct (nullish body); [now left |].
      destruct (truthy marketoLeadId); [| now left].
      rewrite Hgen. now right. }
    destruct Hst as [E | E]; rewrite E in Hin; [assumption |].
    destruct (Htrace Hin) as [H | (base & userPrompt & _ & ->)];
      [assumption |].
    now apply chat_request_not_lead in Hurl.
  - intros Hearly. unfold out.
    rewrite post_webhooks_ai_email_unfold. cbv zeta.
    fold body marketoLeadId.
    destruct (unauthorized env req); [reflexivity |].
    destruct (nullish body); [reflexivity |].
    destruct (truthy marketoLeadId); [| reflexivity].
    destruct Hearly as [H | [H | H]]; discriminate H.
  - intros Hbody Hid. unfold out.
    rewrite post_webhooks_ai_email_unfold. cbv zeta.
    fold body marketoLeadId. rewrite Hbody, Hid.
    destruct (unauthorized env req); cbn [fst snd negb]; auto.
  - intros r Hin Hurl.
    destruct (handler_trace rt env up req st r Hin)
      as [H | [-> | [(base & userPrompt & _ & ->) | H]]].
    + now left.
    + now apply token_request_not_lead in Hurl.
    + now apply chat_request_not_lead in Hurl.
    + now right.
Qed.

Lemma webhook_outcomes_witness :
  let up := Scenario.upstream 2000 Scenario.token_ok
              (Scenario.completion (JStr Scenario.clean_text))
              Scenario.leads_ok in
  let out := post_webhooks_ai_email Reference.runtime Scenario.env up
               Scenario.no_lead_id initial_state in
  snd out = initial_state
  /\ (fst out = error_reply 401 (JStr (str "Unauthorized"))
      \/ fst out = error_reply 400 (JStr (str "marketoLeadId is verplicht"))).
Proof.
  intros up out.
  destruct (webhook_outcomes Reference.runtime Scenario.env up
              Scenario.no_lead_id initial_state)
    as (_ & _ & Hquiet & Hreply & _).
  split.
  - apply Hquiet. right. right. reflexivity.
  - apply Hreply; reflexivity.
Defined.

(** C7 (as stated) fails: when the generation succeeds and the answer to the
    update request cannot be used, the webhook request fails with a server
    error although the lead update request has been sent. *)
Lemma webhook_fails_after_lead_update_request :
  let up := Scenario.upstream 2000 Scenario.token_ok
              (Scenario.completion (JStr Scenario.clean_text))
              Scenario.leads_bad_gateway in
  let out := post_webhooks_ai_email Reference.runtime Scenario.env up
               Scenario.lead_nl initial_state in
  reply_status (fst out) = 500
  /\ lookup match reply_json (fst out) with JObj ps => ps | _ => [] end
            (str "success") = None
  /\ In (update_request Reference.runtime Scenario.env (str "tok-1")
           (JStr (str "42"))
           (fieldsToUpdate Scenario.clean_email (JStr (str "nl"))))
        (sent (snd out)).
Proof.
  intros up out.
  split; [vm_compute; reflexivity | split; [vm_compute; reflexivity |]].
  vm_compute. left. reflexivity.
Qed.

(* ================================================================= *)
(** * An empty language *)

Section EmptyLanguage.

Variable rt : Runtime.

Lemma join_sixth (sep x0 x1 x2 x3 x4 x5 y : jsstring) (ys : list jsstring) :
  join sep (x0 :: x1 :: x2 :: x3 :: x4 :: x5 :: y :: ys)
  = join sep [x0; x1; x2; x3; x4] ++ sep ++ x5 ++ sep ++ join sep (y :: ys).
Proof. simpl. now rewrite <- !app_assoc. Qed.

(** The fifth line of the user prompt names the language. *)
Lemma user_prompt_language_line
      (a : LeadArgs) (b : BaseContent) (prompt l : jsstring) :
  buildUserPrompt rt a (OwnEntry b) = inr prompt ->
  ToString rt (js_or (language a) (JStr (str "nl"))) = inr l ->
  exists before after : jsstring,
    prompt
    = before ++ [newline] ++ (str "- Taal: " ++ l) ++ [newline] ++ after.
Proof.
  unfold buildUserPrompt. intros H Hl.
  destruct (ToString rt (js_or (sector a) (JStr (str "onbekend"))))
    as [e | sector_]; [discriminate H |].
  destruct (ToString rt (js_or (employeeCount a) (JStr (str "onbekend"))))
    as [e | employeeCount_]; [discriminate H |].
  destruct (ToString rt (js_or (jobTitle a) (JStr (str "onbekend"))))
    as [e | jobTitle_]; [discriminate H |].
  rewrite Hl in H. cbn [rbind] in H. injection H as <-.
  unfold lines. rewrite join_sixth. eauto.
Qed.

(** The user prompt reads the language through [language || 'nl'] only. *)
Lemma user_prompt_language_or (a : LeadArgs) (l : JSValue) (base : base_entry) :
  js_or (language a) (JStr (str "nl")) = js_or l (JStr (str "nl")) ->
  buildUserPrompt rt a base = buildUserPrompt rt (set_language a l) base.
Proof. intros H. unfold buildUserPrompt. cbn [sector employeeCount jobTitle language set_language]. now rewrite H. Qed.

End EmptyLanguage.

(** C10.  When the body of the request has [language: ""], the default
    ["nl"] is applied neither by the handler nor by [generateEmailWithAI];
    the system prompt is the English one; the user prompt is the one built
    for ["nl"], with the line "- Taal: nl"; and the lead field
    [AI_Email_Language__c] is the empty string.  Every chat request and
    every update request that the handler sends for such a request carries
    these values. *)
Theorem empty_language_is_not_defaulted
        (rt : Runtime) (env : ProcessEnv) (up : Upstream)
        (req : WebhookRequest) (st : State) (props : properties) :
  req_body req = JObj props ->
  lookup props (str "language") = Some (JStr []) ->
  let body := req_body req in
  let a := handler_args body in
  let as_nl := set_language a (JStr (str "nl")) in
  request_language body = JStr []
  /\ language (defaulted a) = JStr []
  /\ buildSystemPrompt (language (defaulted a)) = english_system_prompt
  /\ english_system_prompt <> dutch_system_prompt
  /\ (forall base : base_entry,
         buildUserPrompt rt (defaulted a) base = buildUserPrompt rt as_nl base)
  /\ (forall (b : BaseContent) (prompt : jsstring),
         buildUserPrompt rt (defaulted a) (OwnEntry b) = inr prompt ->
         exists before after : jsstring,
           prompt
           = before ++ [newline] ++ str "- Taal: nl" ++ [newline] ++ after)
  /\ (forall aiEmail : JSValue,
         lookup (fieldsToUpdate aiEmail (request_language body))
                (str "AI_Email_Language__c") = Some (JStr []))
  /\ (forall r : Request,
         In r (sent (snd (post_webhooks_ai_email rt env up req st))) ->
         In r (sent st)
         \/ r = token_request rt env
         \/ (exists (base : base_entry) (userPrompt : jsstring),
                buildUserPrompt rt as_nl base = inr userPrompt
                /\ r = chat_request rt env english_system_prompt userPrompt)
         \/ (exists (aiEmail : JSValue) (token : jsstring),
                r = update_request rt env token
                      (get_prop body (str "marketoLeadId"))
                      (fieldsToUpdate aiEmail (JStr [])))).
Proof.
  intros Hbody Hlang body a as_nl.
  assert (Hreq : request_language body = JStr []).
  { unfold request_language, body. rewrite Hbody. cbn [get_prop].
    now rewrite Hlang. }
  assert (Hdef : language (defaulted a) = JStr []).
  { unfold defaulted, a. cbn [language set_language handler_args].
    now rewrite Hreq. }
  assert (Hsys : buildSystemPrompt (language (defaulted a))
                 = english_system_prompt)
    by now rewrite Hdef.
  assert (Husr : forall base : base_entry,
             buildUserPrompt rt (defaulted a) base
             = buildUserPrompt rt as_nl base).
  { intros base.
    rewrite (@user_prompt_language_or rt (defaulted a) (JStr (str "nl")) base)
      by now rewrite Hdef.
    reflexivity. }
  repeat split; try assumption.
  - intros E. apply (f_equal (@List.length unit16)) in E.
    vm_compute in E. discriminate E.
  - intros b prompt Hprompt.
    apply (@user_prompt_language_line rt (defaulted a) b prompt (str "nl")
             Hprompt).
    now rewrite Hdef.
  - intros aiEmail. now rewrite Hreq.
  - intros r Hin.
    destruct (handler_trace rt env up req st r Hin)
      as [H | [H | [(base & userPrompt & Hp & H) | (aiEmail & token & _ & H)]]].
    + now left.
    + now (right; left).
    + right. right. left. exists base, userPrompt.
      fold body a in Hp, H. rewrite Husr in Hp. rewrite Hsys in H.
      now split.
    + right. right. right. exists aiEmail, token.
      fold body in H. now rewrite Hreq in H.
Qed.

Lemma empty_language_is_not_defaulted_witness :
  let a := handler_args (req_body Scenario.lead_empty_language) in
  request_language (req_body Scenario.lead_empty_language) = JStr []
  /\ language (defaulted a) = JStr []
  /\ buildSystemPrompt (language (defaulted a)) = english_system_prompt.
Proof.
  intros a.
  destruct (@empty_language_is_not_defaulted Reference.runtime Scenario.env
              (Scenario.upstream 2000 Scenario.token_ok
                 (Scenario.completion (JStr Scenario.clean_text))
                 Scenario.leads_ok)
              Scenario.lead_empty_language initial_state
              [ (str "marketoLeadId", JStr (str "42"));
                (str "sector", JStr (str "Retail"));
                (str "jobTitle", JStr (str "CFO"));
                (str "language", JStr []) ]
              eq_refl eq_refl)
    as (H1 & H2 & H3 & _).
  repeat split; assumption.
Defined.

(* ================================================================= *)
(** * The end-to-end scenarios *)

(** A request for lead 42 with a well-formed model answer and an update
    without errors: the success envelope carries the e-mail and the
    upstream body, the token is cached, and three requests were sent (chat,
    token, update). *)
Example scenario_success :
  let up := Scenario.upstream 2000 Scenario.token_ok
              (Scenario.completion (JStr Scenario.fenced_text))
              Scenario.leads_ok in
  let out := post_webhooks_ai_email Reference.runtime Scenario.env up
               Scenario.lead_nl initial_state in
  Reference.parse (payload Scenario.leads_ok)
  = Some (get_prop (reply_json (fst out)) (str "marketo"))
  /\ get_prop (reply_json (fst out)) (str "aiEmail") = Scenario.clean_email
  /\ get_prop (reply_json (fst out)) (str "success") = JBool true
  /\ reply_status (fst out) = 200
  /\ marketoToken (snd out) = JStr (str "tok-1")
  /\ marketoTokenExpiresAt (snd out) = Num ((2000 + (3600 - 300) * 1000) # 1)
  /\ map url (sent (snd out))
     = [ leads_url Scenario.env;
         token_url Reference.runtime Scenario.env;
         chat_url ].
Proof. vm_compute. repeat split. Qed.

(** The lead endpoint answers HTTP 200 with a non-empty [errors] array: the
    handler replies with a server error. *)
Example scenario_errors_in_200 :
  let up := Scenario.upstream 2000 Scenario.token_ok
              (Scenario.completion (JStr Scenario.clean_text))
              Scenario.leads_errors in
  fst (post_webhooks_ai_email Reference.runtime Scenario.env up
         Scenario.lead_nl initial_state)
  = error_reply 500 (JStr (str "Failed to update Marketo lead")).
Proof. vm_compute. reflexivity. Qed.

(** With a valid cached token the second webhook request does not fetch a
    token again. *)
Example scenario_token_reused :
  let up := Scenario.upstream 2000 Scenario.token_ok
              (Scenario.completion (JStr Scenario.clean_text))
              Scenario.leads_ok in
  let first := post_webhooks_ai_email Reference.runtime Scenario.env up
                 Scenario.lead_nl initial_state in
  let second := post_webhooks_ai_email Reference.runtime Scenario.env up
                  Scenario.lead_nl (snd first) in
  map method (sent (snd second))
  = [ str "POST"; str "POST"; str "POST"; str "GET"; str "POST" ].
Proof. vm_compute. reflexivity. Qed.

(* ================================================================= *)
(** * More on the extraction: what the two clean-up steps keep *)

Section Occurrences.

(** The first and the last occurrence of a character. *)
Lemma first_occurrence (c : unit16) (s : jsstring) :
  In c s -> exists pre rest : jsstring, s = pre ++ c :: rest /\ ~ In c pre.
Proof.
  induction s as [|x r IH]; intros Hin; [destruct Hin |].
  destruct (N.eq_dec x c) as [-> | Hx].
  - exists [], r. split; [reflexivity | intros []].
  - destruct Hin as [E | Hr]; [contradiction |].
    destruct (IH Hr) as (pre & rest & -> & Hpre).
    exists (x :: pre), rest. split; [reflexivity |].
    intros [E | H]; [contradiction | now apply Hpre].
Qed.

Lemma last_occurrence (c : unit16) (s : jsstring) :
  In c s -> exists a post : jsstring, s = a ++ c :: post /\ ~ In c post.
Proof.
  induction s as [|x r IH]; intros Hin; [destruct Hin |].
  destruct (in_dec N.eq_dec c r) as [Hr | Hr].
  - destruct (IH Hr) as (a & post & -> & Hpost).
    exists (x :: a), post. now split.
  - destruct Hin as [-> | H]; [| contradiction].
    exists [], r. now split.
Qed.

(** Either the text has no object between braces, in one of three ways, or
    it splits around its first [{] and its last [}]. *)
Lemma brace_dichotomy (c : jsstring) :
  (~ In lbrace c
   \/ ~ In rbrace c
   \/ exists a b : jsstring,
        c = a ++ rbrace :: b /\ ~ In rbrace b /\ ~ In lbrace a)
  \/ exists pre mid post : jsstring,
       c = pre ++ lbrace :: mid ++ rbrace :: post
       /\ ~ In lbrace pre /\ ~ In rbrace post.
Proof.
  destruct (in_dec N.eq_dec lbrace c) as [Hl | Hl]; [| now left; left].
  destruct (in_dec N.eq_dec rbrace c) as [Hr | Hr]; [| now left; right; left].
  destruct (first_occurrence _ _ Hl) as (pre & rest & E1 & Hpre).
  destruct (last_occurrence _ _ Hr) as (a & post & E2 & Hpost).
  assert (E : pre ++ lbrace :: rest = a ++ rbrace :: post) by congruence.
  apply app_eq_app in E as [l [[Ea Eb] | [Ea Eb]]].
  - left. right. right. exists a, post. repeat split; try assumption.
    intros H. apply Hpre. rewrite Ea. apply in_or_app. now left.
  - destruct l as [|x mid]; [discriminate Eb |].
    injection Eb as <- Erest.
    right. exists pre, mid, post. repeat split; try assumption.
    rewrite E1, Erest. reflexivity.
Qed.

(** The three ways in which the brace search fails. *)
Lemma cleanup_stap2_no_object (c : jsstring) :
  (~ In lbrace c
   \/ ~ In rbrace c
   \/ exists a b : jsstring,
        c = a ++ rbrace :: b /\ ~ In rbrace b /\ ~ In lbrace a) ->
  cleanup_stap2 c = inl no_object_error.
Proof.
  intros H. unfold cleanup_stap2.
  destruct H as [H | [H | (a & b & E & Hb & Ha)]].
  - apply indexOf_absent in H. now rewrite H.
  - apply lastIndexOf_absent in H. rewrite H. now rewrite orb_true_r.
  - assert (Hlast : lastIndexOf c rbrace = Z.of_nat (List.length a)).
    { rewrite E. unfold lastIndexOf. now rewrite lastIndexOf_from_last. }
    assert (Hfirst : indexOf c lbrace = -1
                     \/ Z.of_nat (List.length a) <= indexOf c lbrace).
    { rewrite E. unfold indexOf. rewrite indexOf_from_skip by assumption.
      apply indexOf_from_range. }
    rewrite Hlast.
    destruct Hfirst as [-> | Hle]; [reflexivity |].
    destruct (Z.leb_spec (Z.of_nat (List.length a)) (indexOf c lbrace));
      [| lia].
    now rewrite !orb_true_r.
Qed.

Lemma not_in_app (c : unit16) (u v : jsstring) :
  ~ In c u -> ~ In c v -> ~ In c (u ++ v).
Proof. intros Hu Hv H. apply in_app_or in H. tauto. Qed.

(** Text without braces around [core] does not change what is sliced. *)
Lemma cleanup_stap2_padding (p core q : jsstring) :
  ~ In lbrace p -> ~ In rbrace p -> ~ In lbrace q -> ~ In rbrace q ->
  cleanup_stap2 (p ++ core ++ q) = cleanup_stap2 core.
Proof.
  intros Hp1 Hp2 Hq1 Hq2.
  destruct (brace_dichotomy core)
    as [Hfail | (pre & mid & post & E & Hpre & Hpost)].
  - rewrite (cleanup_stap2_no_object Hfail).
    apply cleanup_stap2_no_object.
    destruct Hfail as [H | [H | (a & b & E & Hb & Ha)]].
    + left. now repeat apply not_in_app.
    + right. left. now repeat apply not_in_app.
    + right. right. exists (p ++ a), (b ++ q). repeat split.
      * rewrite E, <- !app_assoc. reflexivity.
      * now apply not_in_app.
      * now apply not_in_app.
  - rewrite E. rewrite (@cleanup_stap2_object pre mid post Hpre Hpost).
    replace (p ++ (pre ++ lbrace :: mid ++ rbrace :: post) ++ q)
      with ((p ++ pre) ++ lbrace :: mid ++ rbrace :: (post ++ q)).
    + apply cleanup_stap2_object; now apply not_in_app.
    + rewrite <- !app_assoc. simpl. rewrite <- !app_assoc. reflexivity.
Qed.

End Occurrences.

Section CleanupSplits.

Lemma dropWhile_split (p : unit16 -> bool) (s : jsstring) :
  exists w : jsstring, s = w ++ dropWhile p s /\ forallb p w = true.
Proof.
  induction s as [|x r (w & E & Hw)]; [now exists [] |].
  simpl. destruct (p x) eqn:Hx.
  - exists (x :: w). simpl. rewrite Hx, Hw. split; [now f_equal | reflexivity].
  - now exists [].
Qed.

Lemma startsWith_prefix (s p : jsstring) :
  startsWith s p = true -> exists r : jsstring, s = p ++ r.
Proof.
  revert s. induction p as [|x p IH]; intros s H; [now exists s |].
  destruct s as [|y s]; [discriminate H |].
  simpl in H. apply andb_prop in H as [Hxy Hs]. apply N.eqb_eq in Hxy.
  destruct (IH s Hs) as (r & ->). exists r. now subst.
Qed.

Lemma forallb_no_brace (f : unit16 -> bool) (w : jsstring) :
  f lbrace = false -> f rbrace = false -> forallb f w = true ->
  ~ In lbrace w /\ ~ In rbrace w.
Proof.
  intros Hl Hr Hw. rewrite forallb_forall in Hw.
  split; intros Hin; apply Hw in Hin; congruence.
Qed.

Lemma trimEnd_split (s : jsstring) :
  exists w : jsstring,
    s = trimEnd s ++ w /\ forallb isWhiteSpace w = true.
Proof.
  unfold trimEnd. destruct (dropWhile_split isWhiteSpace (rev s))
    as (w & E & Hw).
  exists (rev w). split; [| now apply forallb_rev].
  rewrite <- rev_app_distr, <- E. now rewrite rev_involutive.
Qed.

Lemma trim_split (s : jsstring) :
  exists w1 w2 : jsstring,
    s = w1 ++ trim s ++ w2
    /\ forallb isWhiteSpace w1 = true /\ forallb isWhiteSpace w2 = true.
Proof.
  unfold trim, trimStart.
  destruct (dropWhile_split isWhiteSpace s) as (w1 & E1 & H1).
  destruct (trimEnd_split (dropWhile isWhiteSpace s)) as (w2 & E2 & H2).
  exists w1, w2. repeat split; try assumption.
  now rewrite <- E2.
Qed.

Lemma replace_closing_fence_split (s : jsstring) :
  exists q : jsstring,
    s = replace_closing_fence s ++ q /\ (q = [] \/ q = fence).
Proof.
  unfold replace_closing_fence. destruct (endsWith s fence) eqn:H.
  - unfold endsWith in H. apply startsWith_prefix in H as (r & E).
    apply (f_equal (@rev unit16)) in E.
    rewrite rev_involutive, rev_app_distr, rev_involutive in E.
    exists fence. split; [| now right]. rewrite E at 2. f_equal.
    rewrite E, length_app. change (List.length fence) with 3%nat.
    replace (List.length (rev r) + 3 - 3)%nat
      with (List.length (rev r) + 0)%nat by lia.
    rewrite firstn_app_2. simpl. now rewrite app_nil_r.
  - exists []. split; [now rewrite app_nil_r | now left].
Qed.

Lemma replace_opening_fence_other1 (a : unit16) (s : jsstring) :
  a <> backtick -> replace_opening_fence (a :: s) = a :: s.
Proof.
  intros Ha. destruct a as [|p]; [reflexivity |].
  repeat (destruct p as [p | p |]; try reflexivity).
  now elim Ha.
Qed.

Lemma replace_opening_fence_other2 (b : unit16) (s : jsstring) :
  b <> backtick ->
  replace_opening_fence (backtick :: b :: s) = backtick :: b :: s.
Proof.
  intros Hb. destruct b as [|p]; [reflexivity |].
  repeat (destruct p as [p | p |]; try reflexivity).
  now elim Hb.
Qed.

Lemma replace_opening_fence_other3 (c : unit16) (s : jsstring) :
  c <> backtick ->
  replace_opening_fence (backtick :: backtick :: c :: s)
  = backtick :: backtick :: c :: s.
Proof.
  intros Hc. destruct c as [|p]; [reflexivity |].
  repeat (destruct p as [p | p |]; try reflexivity).
  now elim Hc.
Qed.

Lemma replace_opening_fence_split (s : jsstring) :
  exists p : jsstring,
    s = p ++ replace_opening_fence s /\ ~ In lbrace p /\ ~ In rbrace p.
Proof.
  assert (Hkeep : forall u : jsstring,
             replace_opening_fence u = u ->
             exists p : jsstring,
               u = p ++ replace_opening_fence u
               /\ ~ In lbrace p /\ ~ In rbrace p).
  { intros u ->. exists []. repeat split; intros []. }
  destruct s as [|a s]; [now apply Hkeep |].
  destruct (N.eq_dec a backtick) as [-> | Ha];
    [| now apply Hkeep, replace_opening_fence_other1].
  destruct s as [|b s]; [now apply Hkeep |].
  destruct (N.eq_dec b backtick) as [-> | Hb];
    [| now apply Hkeep, replace_opening_fence_other2].
  destruct s as [|c r]; [now apply Hkeep |].
  destruct (N.eq_dec c backtick) as [-> | Hc];
    [| now apply Hkeep, replace_opening_fence_other3].
  change (replace_opening_fence (backtick :: backtick :: backtick :: r))
    with (dropWhile isWhiteSpace (dropWhile isAsciiLetter r)).
  destruct (dropWhile_split isAsciiLetter r) as (w1 & E1 & H1).
  destruct (dropWhile_split isWhiteSpace (dropWhile isAsciiLetter r))
    as (w2 & E2 & H2).
  destruct (@forallb_no_brace isAsciiLetter w1 eq_refl eq_refl H1).
  destruct (@forallb_no_brace isWhiteSpace w2 eq_refl eq_refl H2).
  exists (fence ++ w1 ++ w2). split.
  - rewrite <- !app_assoc, <- E2, <- E1. reflexivity.
  - split; repeat apply not_in_app; try assumption;
      (intros Hf; vm_compute in Hf; intuition discriminate).
Qed.

(** The first clean-up step only removes text without braces, before and
    after what it keeps. *)
Lemma cleanup_stap1_split (t : jsstring) :
  exists p q : jsstring,
    t = p ++ cleanup_stap1 t ++ q
    /\ (~ In lbrace p /\ ~ In rbrace p)
    /\ (~ In lbrace q /\ ~ In rbrace q).
Proof.
  unfold cleanup_stap1. destruct (startsWith (trim t) fence).
  - destruct (replace_opening_fence_split t) as (p1 & E1 & Hp1).
    destruct (replace_closing_fence_split (replace_opening_fence t))
      as (q1 & E2 & Hq1).
    destruct (trim_split (replace_closing_fence (replace_opening_fence t)))
      as (w1 & w2 & E3 & Hw1 & Hw2).
    destruct (@forallb_no_brace isWhiteSpace w1 eq_refl eq_refl Hw1).
    destruct (@forallb_no_brace isWhiteSpace w2 eq_refl eq_refl Hw2).
    assert (Hq : ~ In lbrace q1 /\ ~ In rbrace q1).
    { destruct Hq1 as [-> | ->]; split; intros Hf;
        vm_compute in Hf; intuition discriminate. }
    exists (p1 ++ w1), (w2 ++ q1). split.
    + rewrite <- !app_assoc.
      rewrite (app_assoc w1), (app_assoc (w1 ++ _)), <- (app_assoc w1).
      now rewrite <- E3, <- E2.
    + split; split; apply not_in_app; tauto.
  - exists [], []. rewrite app_nil_r. repeat split; intros [].
Qed.

End CleanupSplits.

(** X1.  Stripping the code fence never changes what the brace search
    finds: the JSON candidate, or the failure, is the same with and without
    CLEANUP STAP 1, so the result of the extraction is decided by the first
    [{] and the last [}] of the raw text alone. *)
Theorem fence_stripping_keeps_slice (rt : Runtime) (text : jsstring) :
  cleanup_stap2 (cleanup_stap1 text) = cleanup_stap2 text
  /\ email_of_content rt (JStr text)
     = rbind (cleanup_stap2 text)
             (fun jsonSlice => rbind (parse_slice rt jsonSlice) check_fields).
Proof.
  assert (H : cleanup_stap2 (cleanup_stap1 text) = cleanup_stap2 text).
  { destruct (cleanup_stap1_split text) as (p & q & E & [Hp1 Hp2] & [Hq1 Hq2]).
    rewrite E at 2. symmetry. now apply cleanup_stap2_padding. }
  split; [assumption |].
  unfold email_of_content. simpl. now rewrite H.
Qed.

(** X2.  When the brace search succeeds, the JSON candidate is a
    contiguous part of the text that starts with the first [{] of the text
    and ends with its last [}]: everything from the outermost opening brace
    to the outermost closing brace, other objects and prose in between
    included. *)
Theorem slice_is_outermost_span (content jsonSlice : jsstring) :
  cleanup_stap2 content = inr jsonSlice ->
  exists pre mid post : jsstring,
    content = pre ++ jsonSlice ++ post
    /\ jsonSlice = lbrace :: mid ++ [rbrace]
    /\ ~ In lbrace pre
    /\ ~ In rbrace post.
Proof.
  intros H.
  destruct (brace_dichotomy content)
    as [Hfail | (pre & mid & post & E & Hpre & Hpost)].
  - rewrite (cleanup_stap2_no_object Hfail) in H. discriminate H.
  - rewrite E, (@cleanup_stap2_object pre mid post Hpre Hpost) in H.
    injection H as <-.
    exists pre, mid, post. repeat split; try assumption.
    rewrite E. simpl. now rewrite <- app_assoc.
Qed.

Lemma slice_is_outermost_span_witness :
  exists pre mid post : jsstring,
    Scenario.fenced_text = pre ++ Scenario.clean_text ++ post
    /\ Scenario.clean_text = lbrace :: mid ++ [rbrace]
    /\ ~ In lbrace pre
    /\ ~ In rbrace post.
Proof.
  apply (@slice_is_outermost_span Scenario.fenced_text Scenario.clean_text).
  vm_compute. reflexivity.
Defined.

(** X3.  The extraction ends in one of these ways only: an e-mail that
    [JSON.parse] read from the span between the first [{] and the last [}] of
    the raw text and whose three fields are truthy; one of the three errors
    of [index.js] (no object, not JSON, missing fields); or a TypeError,
    raised by [content.trim()] when the content is not a string, or by
    [parsed.subject] when [JSON.parse] returned [null]. *)
Theorem extraction_outcomes (rt : Runtime) (content : JSValue) :
  match email_of_content rt content with
  | inr email =>
    complete email = true
    /\ exists text jsonSlice : jsstring,
        content = JStr text
        /\ cleanup_stap2 text = inr jsonSlice
        /\ JSON_parse rt jsonSlice = Some email
  | inl e =>
    e = no_object_error
    \/ e = not_json_error
    \/ e = missing_fields_error
    \/ (nullish content = true
        /\ e = Builtin (ReadOfNullish content (str "trim")))
    \/ ((forall text : jsstring, content <> JStr text)
        /\ e = Builtin (NotAFunction content (str "trim")))
    \/ exists (v : JSValue) (jsonSlice : jsstring),
        nullish v = true
        /\ JSON_parse rt jsonSlice = Some v
        /\ e = Builtin (ReadOfNullish v (str "subject"))
  end.
Proof.
  destruct content as [| | b | q | text | l | ps];
    try (cbn; right; right; right; first
           [ left; split; reflexivity
           | right; left; split; [intros text H; discriminate H | reflexivity] ]).
  destruct (fence_stripping_keeps_slice rt text) as [_ ->].
  destruct (cleanup_stap2 text) as [e | jsonSlice] eqn:Hslice.
  - cbn. unfold cleanup_stap2 in Hslice.
    destruct (_ || _) in Hslice; [| discriminate Hslice].
    injection Hslice as <-. now left.
  - cbn [rbind]. unfold parse_slice.
    destruct (JSON_parse rt jsonSlice) as [parsed |] eqn:Hparse;
      [| cbn; now (right; left)].
    cbn [rbind]. destruct (nullish parsed) eqn:Hn.
    + unfold check_fields, member. rewrite Hn. cbn.
      do 5 right. now exists parsed, jsonSlice.
    + rewrite check_fields_spec by assumption.
      destruct (complete parsed) eqn:Hc.
      * split; [assumption |]. now exists text, jsonSlice.
      * now (right; right; left).
Qed.

(* ================================================================= *)
(** * More on the token cache *)

Section CacheFacts.

Variable rt : Runtime.
Variable env : ProcessEnv.
Variable up : Upstream.

(** The state after a token exchange that was answered with a usable
    body. *)
Lemma exchange_state (st : State) (res : Response) (data : JSValue)
      (n : number) :
  truthy (marketoToken st)
  && js_lt (of_Z (Date_now up (sent st))) (marketoTokenExpiresAt st) = false ->
  respond up (sent st) (token_request rt env) = Some res ->
  ok res = true ->
  JSON_parse rt (payload res) = Some data ->
  nullish data = false ->
  ToNumber rt (get_prop data (str "expires_in")) = inr n ->
  getMarketoAccessToken rt env up st
  = (inr (get_prop data (str "access_token")),
     {| marketoToken := get_prop data (str "access_token");
        marketoTokenExpiresAt := expiry (Date_now up (sent st)) n;
        sent := token_request rt env :: sent st |}).
Proof.
  intros Hguard Hres Hok Hparse Hnull Hnum.
  rewrite getMarketoAccessToken_unfold. cbv zeta.
  now rewrite Hguard, Hres, Hok, Hparse, Hnull, Hnum.
Qed.

Lemma fetch_content_cache (a : LeadArgs) (st : State) :
  let st' := snd (fetch_content rt env up a st) in
  marketoToken st' = marketoToken st
  /\ marketoTokenExpiresAt st' = marketoTokenExpiresAt st.
Proof.
  rewrite fetch_content_unfold.
  destruct (ToString rt (baseDataId a)) as [e | key]; [now split |].
  destruct (BASE_DATA rt key) as [base |]; [| now split].
  destruct (buildUserPrompt rt (defaulted a) base) as [e | userPrompt];
    [now split |].
  cbv zeta.
  destruct (respond up (sent st) _) as [res |]; [| now split].
  destruct (ok res); now split.
Qed.

End CacheFacts.

(** X4.  [generateEmailWithAI] never touches the token cache: whatever
    its arguments and its outcome, [marketoToken] and
    [marketoTokenExpiresAt] are as before. *)
Theorem generation_keeps_token_cache
        (rt : Runtime) (env : ProcessEnv) (up : Upstream)
        (a : LeadArgs) (st : State) :
  let st' := snd (generateEmailWithAI rt env up a st) in
  marketoToken st' = marketoToken st
  /\ marketoTokenExpiresAt st' = marketoTokenExpiresAt st.
Proof.
  rewrite generateEmailWithAI_unfold.
  pose proof (fetch_content_cache rt env up a st) as H.
  destruct (fetch_content rt env up a st) as [[e | content] st1]; exact H.
Qed.

(** X5.  [getMarketoAccessToken] writes to the cache only from a token
    response with a success status and a body that parses to a value other
    than [null]: when either cache variable has changed, such a response
    was received and [marketoToken] is its [access_token].  A rejected
    fetch, a non-success status, an unparsable body or a [null] body leave
    the cache as it was. *)
Theorem cache_changes_only_on_parsed_response
        (rt : Runtime) (env : ProcessEnv) (up : Upstream) (st : State) :
  let st' := snd (getMarketoAccessToken rt env up st) in
  marketoToken st' <> marketoToken st
  \/ marketoTokenExpiresAt st' <> marketoTokenExpiresAt st ->
  exists (res : Response) (data : JSValue),
    respond up (sent st) (token_request rt env) = Some res
    /\ ok res = true
    /\ JSON_parse rt (payload res) = Some data
    /\ nullish data = false
    /\ marketoToken st' = get_prop data (str "access_token").
Proof.
  rewrite getMarketoAccessToken_unfold. cbv zeta.
  assert (Hsame : forall (r : result JSValue) (reqs : list Request),
             marketoToken (snd (r, with_sent st reqs)) <> marketoToken st
             \/ marketoTokenExpiresAt (snd (r, with_sent st reqs))
                <> marketoTokenExpiresAt st ->
             False).
  { intros r reqs [H | H]; now apply H. }
  destruct (truthy (marketoToken st) && _);
    [intros [H | H]; now elim H |].
  destruct (respond up (sent st) (token_request rt env)) as [res |];
    [| intros H; now apply Hsame in H].
  destruct (ok res) eqn:Hok; [| intros H; now apply Hsame in H].
  destruct (JSON_parse rt (payload res)) as [data |] eqn:Hparse;
    [| intros H; now apply Hsame in H].
  destruct (nullish data) eqn:Hnull; [intros H; now apply Hsame in H |].
  intros _. exists res, data.
  destruct (ToNumber rt (get_prop data (str "expires_in")));
    repeat split; assumption.
Qed.

Lemma cache_changes_only_on_parsed_response_witness :
  let up := Scenario.upstream 2000 Scenario.token_ok
              (Scenario.completion JNull) Scenario.leads_ok in
  exists (res : Response) (data : JSValue),
    respond up [] (token_request Reference.runtime Scenario.env) = Some res
    /\ ok res = true
    /\ JSON_parse Reference.runtime (payload res) = Some data
    /\ nullish data = false
    /\ marketoToken
         (snd (getMarketoAccessToken Reference.runtime Scenario.env up
                                     Scenario.stale))
       = get_prop data (str "access_token").
Proof.
  intros up.
  apply (cache_changes_only_on_parsed_response Reference.runtime Scenario.env
           up Scenario.stale).
  left. vm_compute. discriminate.
Defined.



(** X7.  Some token responses are stored but never served: when the
    [access_token] is falsy (absent, say), when [expires_in] does not
    convert to a number (absent, say), or when the lifetime is at most the
    300 seconds of the margin, the next call, made no earlier, sends a token
    request again. *)
Theorem unusable_token_is_fetched_again
        (rt : Runtime) (env : ProcessEnv) (up : Upstream) (st : State)
        (res : Response) (data : JSValue) (n : number) :
  truthy (marketoToken st)
  && js_lt (of_Z (Date_now up (sent st))) (marketoTokenExpiresAt st) = false ->
  respond up (sent st) (token_request rt env) = Some res ->
  ok res = true ->
  JSON_parse rt (payload res) = Some data ->
  nullish data = false ->
  ToNumber rt (get_prop data (str "expires_in")) = inr n ->
  let st' := snd (getMarketoAccessToken rt env up st) in
  truthy (get_prop data (str "access_token")) = false
  \/ n = NaN
  \/ (exists q : Q,
         n = Num q /\ (q <= 300)%Q
         /\ Date_now up (sent st) <= Date_now up (sent st')) ->
  sent (snd (getMarketoAccessToken rt env up st'))
  = token_request rt env :: sent st'.
Proof.
  intros Hguard Hres Hok Hparse Hnull Hnum st' Hunusable.
  unfold st' in *.
  rewrite (exchange_state rt env up st Hguard Hres Hok Hparse Hnull Hnum)
    in *.
  cbn [snd sent] in *.
  apply exchange_sent. cbn [marketoToken marketoTokenExpiresAt sent].
  destruct Hunusable as [Htoken | [-> | (q & -> & Hq & Hclock)]].
  - now rewrite Htoken.
  - apply andb_false_r.
  - assert (Hlt : js_lt (of_Z (Date_now up (token_request rt env :: sent st)))
                        (expiry (Date_now up (sent st)) (Num q)) = false).
    { unfold js_lt, of_Z, expiry, js_add, js_mul, js_sub.
      apply negb_false_iff. rewrite Qle_bool_iff.
      rewrite Zle_Qle in Hclock. lra. }
    rewrite Hlt. apply andb_false_r.
Qed.

Lemma unusable_token_is_fetched_again_witness :
  let up := Scenario.ticking Scenario.token_short_lived
              (Scenario.completion JNull) Scenario.leads_ok in
  let st' := snd (getMarketoAccessToken Reference.runtime Scenario.env up
                                        Scenario.stale) in
  marketoToken st' = JStr (str "tok-2")
  /\ sent (snd (getMarketoAccessToken Reference.runtime Scenario.env up st'))
     = token_request Reference.runtime Scenario.env :: sent st'.
Proof.
  intros up st'. split; [vm_compute; reflexivity |].
  refine (@unusable_token_is_fetched_again Reference.runtime Scenario.env
            up Scenario.stale Scenario.token_short_lived
            (JObj [ (str "access_token", JStr (str "tok-2"));
                    (str "expires_in", JNum 120) ])
            (Num 120) _ _ _ _ _ _ _);
    try (vm_compute; reflexivity).
  right. right. exists 120%Q. repeat split.
  - vm_compute. discriminate.
  - vm_compute. discriminate.
Defined.

(** X8.  A token response without [access_token] is not detected:
    [getMarketoAccessToken] returns [undefined] without throwing, and
    [updateMarketoLead] then sends the update with the header
    [Authorization: Bearer undefined]. *)
Theorem missing_access_token_is_not_detected
        (rt : Runtime) (env : ProcessEnv) (up : Upstream) (st : State)
        (res : Response) (data : JSValue) (n : number) :
  truthy (marketoToken st)
  && js_lt (of_Z (Date_now up (sent st))) (marketoTokenExpiresAt st) = false ->
  respond up (sent st) (token_request rt env) = Some res ->
  ok res = true ->
  JSON_parse rt (payload res) = Some data ->
  nullish data = false ->
  get_prop data (str "access_token") = JUndefined ->
  ToNumber rt (get_prop data (str "expires_in")) = inr n ->
  fst (getMarketoAccessToken rt env up st) = inr JUndefined
  /\ forall (marketoLeadId : JSValue) (fields : properties),
      exists request : Request,
        sent (snd (updateMarketoLead rt env up marketoLeadId fields st))
        = request :: token_request rt env :: sent st
        /\ url request = leads_url env
        /\ header (headers request) (str "Authorization")
           = Some (str "Bearer undefined").
Proof.
  intros Hguard Hres Hok Hparse Hnull Htoken Hnum.
  pose proof (exchange_state rt env up st Hguard Hres Hok Hparse Hnull Hnum)
    as Hget.
  rewrite Htoken in Hget. split; [now rewrite Hget |].
  intros marketoLeadId fields.
  exists (update_request rt env (str "undefined") marketoLeadId fields).
  split; [| split; reflexivity].
  rewrite updateMarketoLead_unfold, Hget.
  cbn [ToString]. cbv zeta. cbn [sent].
  destruct (respond up (token_request rt env :: sent st) _) as [res' |];
    [| reflexivity].
  destruct (JSON_parse rt (payload res')) as [data' |]; [| reflexivity].
  destruct (negb (ok res') || truthy (errors_length data')); reflexivity.
Qed.

Lemma missing_access_token_is_not_detected_witness :
  let up := Scenario.upstream 2000 Scenario.token_without_value
              (Scenario.completion JNull) Scenario.leads_ok in
  fst (getMarketoAccessToken Reference.runtime Scenario.env up Scenario.stale)
  = inr JUndefined.
Proof.
  intros up.
  refine (proj1 (@missing_access_token_is_not_detected Reference.runtime
                   Scenario.env up Scenario.stale Scenario.token_without_value
                   (JObj [ (str "token_type", JStr (str "bearer"));
                           (str "expires_in", JNum 3600) ])
                   (Num 3600) _ _ _ _ _ _ _));
    vm_compute; reflexivity.
Defined.

(* ================================================================= *)
(** * More on the generation and on the handler *)

Lemma jsstring_eqb_eq (a b : jsstring) : JsString.eqb a b = true <-> a = b.
Proof.
  unfold JsString.eqb. destruct (list_eq_dec N.eq_dec a b) as [E | E].
  - now split.
  - split; [discriminate | contradiction].
Qed.

Lemma jsstring_eqb_neq (a b : jsstring) : JsString.eqb a b = false <-> a <> b.
Proof.
  unfold JsString.eqb. destruct (list_eq_dec N.eq_dec a b) as [E | E].
  - split; [discriminate | contradiction].
  - now split.
Qed.






Section Access.

Variable env : ProcessEnv.

Lemma option_eqb_eq (a b : option jsstring) : option_eqb a b = true <-> a = b.
Proof.
  destruct a as [x |], b as [y |]; simpl.
  - rewrite jsstring_eqb_eq. split; [now intros -> | now intros [= ->]].
  - split; discriminate.
  - split; discriminate.
  - now split.
Qed.

Lemma unauthorized_spec (req : WebhookRequest) :
  unauthorized env req = true
  <-> exists secret : jsstring,
        WEBHOOK_SECRET env = Some secret
        /\ secret <> []
        /\ header (req_headers req) (str "x-webhook-key") <> Some secret.
Proof.
  unfold unauthorized.
  destruct (WEBHOOK_SECRET env) as [[|c s] |].
  - split; [discriminate |]. intros (secret & [= <-] & H & _). now elim H.
  - rewrite negb_true_iff, <- not_true_iff_false, option_eqb_eq. split.
    + intros H. exists (c :: s). repeat split; [discriminate | assumption].
    + now intros (secret & [= <-] & _ & H).
  - split; [discriminate |]. now intros (secret & [=] & _).
Qed.

End Access.

(** X10.  The webhook is answered 401 exactly when [WEBHOOK_SECRET] is set
    to a non-empty string and the header [x-webhook-key] is absent or
    differs from it (the comparison is exact); then nothing is sent and the
    state is unchanged.  With [WEBHOOK_SECRET] unset or empty every
    request passes the check. *)
Theorem unauthorized_exactly_when_key_differs
        (rt : Runtime) (env : ProcessEnv) (up : Upstream)
        (req : WebhookRequest) (st : State) :
  let out := post_webhooks_ai_email rt env up req st in
  (reply_status (fst out) = 401
   <-> exists secret : jsstring,
         WEBHOOK_SECRET env = Some secret
         /\ secret <> []
         /\ header (req_headers req) (str "x-webhook-key") <> Some secret)
  /\ (reply_status (fst out) = 401 ->
      out = (error_reply 401 (JStr (str "Unauthorized")), st))
  /\ (WEBHOOK_SECRET env = None \/ WEBHOOK_SECRET env = Some [] ->
      reply_status (fst out) <> 401).
Proof.
  intros out.
  assert (Hout : (unauthorized env req = true
                  /\ out = (error_reply 401 (JStr (str "Unauthorized")), st))
                 \/ (unauthorized env req = false
                     /\ reply_status (fst out) <> 401)).
  { unfold out. rewrite post_webhooks_ai_email_unfold. cbv zeta.
    destruct (unauthorized env req); [now left | right].
    split; [reflexivity |].
    destruct (nullish (req_body req)); [discriminate |].
    destruct (truthy _); [| discriminate].
    destruct (generateEmailWithAI rt env up _ st) as [[e | aiEmail] st1];
      [discriminate |].
    destruct (updateMarketoLead rt env up _ _ st1) as [[e | mkto] st2];
      discriminate. }
  rewrite <- unauthorized_spec.
  destruct Hout as [[Hu Ho] | [Hu Ho]].
  - split; [| split].
    + rewrite Ho, Hu. now split.
    + now intros _.
    + intros Hsecret. exfalso. apply unauthorized_spec in Hu
        as (secret & E & Hne & _).
      destruct Hsecret as [H | H]; rewrite H in E; [discriminate E |].
      injection E as <-. now elim Hne.
  - split; [| split].
    + rewrite Hu. split; [intros H; now elim Ho | discriminate].
    + intros H. now elim Ho.
    + now intros _.
Qed.

Lemma unauthorized_exactly_when_key_differs_witness :
  let up := Scenario.upstream 2000 Scenario.token_ok
              (Scenario.completion (JStr Scenario.clean_text))
              Scenario.leads_ok in
  post_webhooks_ai_email Reference.runtime Scenario.env_with_secret up
    (Scenario.keyed (str "Hunter2")) initial_state
  = (error_reply 401 (JStr (str "Unauthorized")), initial_state).
Proof.
  intros up.
  apply (proj1 (proj2 (unauthorized_exactly_when_key_differs
                         Reference.runtime Scenario.env_with_secret up
                         (Scenario.keyed (str "Hunter2")) initial_state))).
  vm_compute. reflexivity.
Defined.

Section Spread.

Lemma lookup_app (a b : properties) (k : jsstring) :
  lookup (a ++ b) k
  = match lookup a k with Some v => Some v | None => lookup b k end.
Proof.
  induction a as [|[k1 v1] a IH]; [reflexivity |].
  simpl. now destruct (JsString.eqb k1 k).
Qed.

Lemma lookup_assign (ps : properties) (k : jsstring) (v : JSValue)
      (k' : jsstring) :
  lookup (assign ps k v) k'
  = if JsString.eqb k k' then Some v else lookup ps k'.
Proof.
  induction ps as [|[k1 v1] r IH]; [reflexivity |].
  simpl. destruct (JsString.eqb k1 k) eqn:E1.
  - apply jsstring_eqb_eq in E1 as ->. simpl.
    now destruct (JsString.eqb k k').
  - simpl. rewrite IH.
    destruct (JsString.eqb k1 k') eqn:E2; [| reflexivity].
    destruct (JsString.eqb k k') eqn:E3; [| reflexivity].
    apply jsstring_eqb_eq in E2, E3. subst.
    apply jsstring_eqb_neq in E1. now elim E1.
Qed.

(** In [{ ...target, ...source }] the last binding of the source wins, and
    the target shows through where the source is silent. *)
Lemma lookup_spread (target source : properties) (k : jsstring) :
  lookup (spread target source) k
  = match lookup (rev source) k with
    | Some v => Some v
    | None => lookup target k
    end.
Proof.
  unfold spread. revert target.
  induction source as [|[k1 v1] s IH]; intros target; [reflexivity |].
  simpl. rewrite IH, lookup_assign, lookup_app. simpl.
  destruct (lookup (rev s) k); [reflexivity |].
  now destruct (JsString.eqb k1 k).
Qed.

End Spread.

(** X11.  In the body of the update request, [{ id: marketoLeadId,
    ...fields }] lets a field named [id] replace the lead identifier, and
    every other member is the last binding of that name in [fields].  The
    five fields the handler passes do not contain [id], so the handler
    always addresses the lead of the request. *)
Theorem lead_id_in_update_body (marketoLeadId : JSValue) (fields : properties) :
  let input (fs : properties) :=
    get_index0 (get_prop (update_body marketoLeadId fs) (str "input")) in
  get_prop (input fields) (str "id")
  = match lookup (rev fields) (str "id") with
    | Some v => v
    | None => marketoLeadId
    end
  /\ (forall k : jsstring,
         k <> str "id" ->
         get_prop (input fields) k = get_prop (JObj (rev fields)) k)
  /\ (forall aiEmail language : JSValue,
         get_prop (input (fieldsToUpdate aiEmail language)) (str "id")
         = marketoLeadId).
Proof.
  intros input.
  assert (Hinput : forall fs : properties,
             input fs = JObj (spread [(str "id", marketoLeadId)] fs))
    by (intros fs; vm_compute; reflexivity).
  split; [| split].
  - rewrite Hinput. cbn [get_prop]. rewrite lookup_spread.
    now destruct (lookup (rev fields) (str "id")).
  - intros k Hk. rewrite Hinput. cbn [get_prop]. rewrite lookup_spread.
    destruct (lookup (rev fields) k); [reflexivity |].
    simpl. apply not_eq_sym in Hk.
    now rewrite (proj2 (jsstring_eqb_neq (str "id") k) Hk).
  - intros aiEmail language. rewrite Hinput. cbn [get_prop].
    rewrite lookup_spread. reflexivity.
Qed.

Section Requests.

Variable rt : Runtime.
Variable env : ProcessEnv.
Variable up : Upstream.

(** What [generateEmailWithAI] adds to the requests sent: nothing, and then
    it fails, or the chat request alone. *)
Lemma generateEmailWithAI_sent (a : LeadArgs) (st : State) :
  let r := generateEmailWithAI rt env up a st in
  (sent (snd r) = sent st /\ exists e : exn, fst r = inl e)
  \/ exists userPrompt : jsstring,
      sent (snd r)
      = chat_request rt env (buildSystemPrompt (language (defaulted a)))
          userPrompt :: sent st.
Proof.
  cbv zeta. rewrite generateEmailWithAI_unfold, fetch_content_unfold.
  destruct (ToString rt (baseDataId a)) as [e | key]; [left; simpl; eauto |].
  destruct (BASE_DATA rt key) as [base |]; [| left; simpl; eauto].
  destruct (buildUserPrompt rt (defaulted a) base) as [e | userPrompt];
    [left; simpl; eauto |].
  right. exists userPrompt. cbv zeta.
  destruct (respond up (sent st) _) as [res |]; [| reflexivity].
  destruct (ok res); [| reflexivity].
  destruct (content_of rt res); reflexivity.
Qed.

(** What [updateMarketoLead] adds: at most the token request, and then it
    fails, or the update request after at most the token request. *)
Lemma updateMarketoLead_sent
      (marketoLeadId : JSValue) (fields : properties) (st : State) :
  let r := updateMarketoLead rt env up marketoLeadId fields st in
  ((sent (snd r) = sent st \/ sent (snd r) = token_request rt env :: sent st)
   /\ exists e : exn, fst r = inl e)
  \/ exists token : jsstring,
      let upd := update_request rt env token marketoLeadId fields in
      sent (snd r) = upd :: sent st
      \/ sent (snd r) = upd :: token_request rt env :: sent st.
Proof.
  cbv zeta. rewrite updateMarketoLead_unfold.
  pose proof (getMarketoAccessToken_sent rt env up st) as Hsent.
  cbv zeta in Hsent.
  destruct (getMarketoAccessToken rt env up st) as [[e | token] st1];
    simpl in Hsent |- *; [left; eauto |].
  destruct (ToString rt token) as [e | bearer]; [left; simpl; eauto |].
  right. exists bearer. cbv zeta.
  assert (Hcons : forall s : State,
             sent s = update_request rt env bearer marketoLeadId fields
                      :: sent st1 ->
             sent s = update_request rt env bearer marketoLeadId fields
                      :: sent st
             \/ sent s = update_request rt env bearer marketoLeadId fields
                         :: token_request rt env :: sent st).
  { intros s ->. destruct Hsent as [-> | ->]; tauto. }
  destruct (respond up (sent st1) _) as [res |];
    [| now apply Hcons].
  destruct (JSON_parse rt (payload res)) as [data |]; [| now apply Hcons].
  destruct (negb (ok res) || truthy (errors_length data)); now apply Hcons.
Qed.

Lemma defaulted_handler_language (body : JSValue) :
  language (defaulted (handler_args body)) = request_language body.
Proof.
  unfold defaulted, handler_args, request_language. simpl.
  now destruct (get_prop body (str "language")).
Qed.

End Requests.

Lemma system_prompts_differ : dutch_system_prompt <> english_system_prompt.
Proof.
  intros H. apply (f_equal (@List.length _)) in H. vm_compute in H.
  discriminate.
Qed.

Lemma is_nl_spec (l : JSValue) : is_nl l = true <-> l = JStr (str "nl").
Proof.
  destruct l; simpl; try (split; discriminate).
  rewrite jsstring_eqb_eq. split; [now intros -> | now intros [= ->]].
Qed.

(** X12.  The model is instructed in Dutch exactly when the webhook body
    has no [language] or has the string [nl]; every other value, [null],
    "NL" and "fr" among them, gets the English system prompt.  What
    [generateEmailWithAI] sends for the handler is the chat request with
    that system prompt, and nothing else. *)
Theorem system_prompt_follows_request_language
        (rt : Runtime) (env : ProcessEnv) (up : Upstream)
        (body : JSValue) (st : State) (r : Request) :
  let l := get_prop body (str "language") in
  let a := handler_args body in
  let systemPrompt := buildSystemPrompt (language (defaulted a)) in
  In r (sent (snd (generateEmailWithAI rt env up a st))) ->
  ~ In r (sent st) ->
  (exists userPrompt : jsstring,
      r = chat_request rt env systemPrompt userPrompt)
  /\ (systemPrompt = dutch_system_prompt
      <-> l = JUndefined \/ l = JStr (str "nl"))
  /\ (systemPrompt = english_system_prompt
      <-> l <> JUndefined /\ l <> JStr (str "nl")).
Proof.
  intros l a systemPrompt Hin Hnew. split.
  - destruct (generateEmailWithAI_sent rt env up a st)
      as [[Hsame _] | [userPrompt Hsent]].
    + rewrite Hsame in Hin. contradiction.
    + rewrite Hsent in Hin.
      destruct Hin as [<- | Hin]; [eauto | contradiction].
  - unfold systemPrompt, a. rewrite defaulted_handler_language.
    unfold buildSystemPrompt, request_language. fold l.
    assert (Hidem : forall v : JSValue,
               default_to (JStr (str "nl")) (default_to (JStr (str "nl")) v)
               = default_to (JStr (str "nl")) v) by now intros [].
    rewrite Hidem. pose proof system_prompts_differ as Hdiff.
    destruct (is_nl (default_to (JStr (str "nl")) l)) eqn:Hnl.
    + apply is_nl_spec in Hnl.
      assert (Hl : l = JUndefined \/ l = JStr (str "nl"))
        by (destruct l; simpl in Hnl; auto; discriminate).
      split; split; intuition congruence.
    + assert (Hl : l <> JUndefined /\ l <> JStr (str "nl")).
      { split; intros E; rewrite E in Hnl; vm_compute in Hnl;
          discriminate. }
      split; split; intuition congruence.
Qed.

Lemma system_prompt_follows_request_language_witness :
  let body := req_body (Scenario.lead [ (str "language", JNull) ]) in
  let up := Scenario.upstream 2000 Scenario.token_ok
              (Scenario.completion (JStr Scenario.clean_text))
              Scenario.leads_ok in
  exists userPrompt : jsstring,
    sent (snd (generateEmailWithAI Reference.runtime Scenario.env up
                 (handler_args body) initial_state))
    = [ chat_request Reference.runtime Scenario.env english_system_prompt
          userPrompt ].
Proof.
  intros body up.
  set (reqs := sent (snd (generateEmailWithAI Reference.runtime Scenario.env
                            up (handler_args body) initial_state))).
  assert (Hone : reqs = [ hd (token_request Reference.runtime Scenario.env)
                            reqs ])
    by (vm_compute; reflexivity).
  destruct (@system_prompt_follows_request_language
              Reference.runtime Scenario.env up body initial_state
              (hd (token_request Reference.runtime Scenario.env) reqs))
    as ((userPrompt & Hr) & _ & Heng).
  - fold reqs. rewrite Hone at 2. now left.
  - simpl. tauto.
  - exists userPrompt. rewrite Hone, Hr.
    apply (f_equal (fun s : jsstring =>
                      [ chat_request Reference.runtime Scenario.env s
                          userPrompt ])).
    apply Heng. split; vm_compute; discriminate.
Defined.

(** X13.  A webhook sends at most three requests, each at most once and in
    this order: the chat request, the token request, the update request.
    Nothing is retried.  A reply with status 200 is given only after the
    update request was sent; when the update request was not sent, the
    reply is not 200. *)
Theorem webhook_sends_each_request_once
        (rt : Runtime) (env : ProcessEnv) (up : Upstream)
        (req : WebhookRequest) (st : State) :
  let body := req_body req in
  let out := post_webhooks_ai_email rt env up req st in
  let token := token_request rt env in
  (sent (snd out) = sent st /\ reply_status (fst out) <> 200)
  \/ exists userPrompt : jsstring,
      let chat :=
        chat_request rt env
          (buildSystemPrompt (language (defaulted (handler_args body))))
          userPrompt in
      ((sent (snd out) = chat :: sent st
        \/ sent (snd out) = token :: chat :: sent st)
       /\ reply_status (fst out) = 500)
      \/ exists (aiEmail : JSValue) (bearer : jsstring),
          let update :=
            update_request rt env bearer
              (get_prop body (str "marketoLeadId"))
              (fieldsToUpdate aiEmail (request_language body)) in
          complete aiEmail = true
          /\ (sent (snd out) = update :: chat :: sent st
              \/ sent (snd out) = update :: token :: chat :: sent st).
Proof.
  intros body out token. unfold out.
  rewrite post_webhooks_ai_email_unfold. cbv zeta. fold body.
  destruct (unauthorized env req); [left; split; [reflexivity | discriminate] |].
  destruct (nullish body); [left; split; [reflexivity | discriminate] |].
  destruct (truthy (get_prop body (str "marketoLeadId")));
    [| left; split; [reflexivity | discriminate]].
  pose proof (generateEmailWithAI_sent rt env up (handler_args body) st)
    as Hgen.
  pose proof (@generateEmailWithAI_complete rt env up (handler_args body) st)
    as Hcomplete.
  cbv zeta in Hgen.
  destruct (generateEmailWithAI rt env up (handler_args body) st)
    as [[e | aiEmail] st1]; simpl in Hgen.
  - destruct Hgen as [[Hsame _] | [userPrompt Hsent]].
    + left. split; [exact Hsame | discriminate].
    + right. exists userPrompt. left. split; [now left | reflexivity].
  - destruct Hgen as [[_ [e [=]]] | [userPrompt Hsent]].
    specialize (Hcomplete st1 aiEmail eq_refl).
    right. exists userPrompt.
    pose proof (updateMarketoLead_sent rt env up
                  (get_prop body (str "marketoLeadId"))
                  (fieldsToUpdate aiEmail (request_language body)) st1)
      as Hupd.
    cbv zeta in Hupd. rewrite Hsent in Hupd.
    destruct (updateMarketoLead rt env up _ _ st1) as [[e | mkto] st2];
      simpl in Hupd |- *.
    + destruct Hupd as [[Hs _] | [bearer Hs]].
      * left. split; [exact Hs | reflexivity].
      * right. exists aiEmail, bearer. split; [exact Hcomplete | exact Hs].
    + destruct Hupd as [[_ [e [=]]] | [bearer Hs]].
      right. exists aiEmail, bearer. split; [exact Hcomplete | exact Hs].
Qed.

(** X14.  A [language] that is falsy but not [undefined] ([null], the
    empty string, [0], [false]) gets prompts in two languages: the system
    prompt is the English one, because the value is not the string [nl],
    while the user prompt is, character for character, the one of a Dutch
    lead, because [language || 'nl'] writes [nl] on its language line. *)
Theorem falsy_language_gets_mixed_prompts
        (rt : Runtime) (a : LeadArgs) (base : base_entry) :
  language a <> JUndefined ->
  truthy (language a) = false ->
  let dutch_lead := set_language a (JStr (str "nl")) in
  buildSystemPrompt (language (defaulted a)) = english_system_prompt
  /\ buildSystemPrompt (language (defaulted dutch_lead)) = dutch_system_prompt
  /\ buildUserPrompt rt (defaulted a) base
     = buildUserPrompt rt (defaulted dutch_lead) base.
Proof.
  intros Hdef Hfalsy dutch_lead.
  assert (Hlang : language (defaulted a) = language a).
  { unfold defaulted. simpl. revert Hdef.
    destruct (language a); intros H; solve [reflexivity | now elim H]. }
  split; [| split].
  - rewrite Hlang. unfold buildSystemPrompt.
    assert (Hnl : is_nl (default_to (JStr (str "nl")) (language a)) = false).
    { revert Hdef Hfalsy.
      destruct (language a) as [| | b | q | s | l | ps];
        intros Hdef Hfalsy; try reflexivity; [now elim Hdef |].
      destruct s; [reflexivity | discriminate]. }
    now rewrite Hnl.
  - reflexivity.
  - unfold buildUserPrompt. rewrite Hlang.
    change (sector (defaulted a)) with (sector (defaulted dutch_lead)).
    change (employeeCount (defaulted a))
      with (employeeCount (defaulted dutch_lead)).
    change (jobTitle (defaulted a)) with (jobTitle (defaulted dutch_lead)).
    unfold js_or at 4. rewrite Hfalsy. reflexivity.
Qed.

Lemma falsy_language_gets_mixed_prompts_witness :
  let a := set_language Scenario.args_nl JNull in
  buildSystemPrompt (language (defaulted a)) = english_system_prompt
  /\ buildUserPrompt Reference.runtime (defaulted a) (OwnEntry VC_BASE_V1)
     = buildUserPrompt Reference.runtime (defaulted Scenario.args_nl)
         (OwnEntry VC_BASE_V1).
Proof.
  intros a.
  destruct (@falsy_language_gets_mixed_prompts Reference.runtime a
              (OwnEntry VC_BASE_V1)) as (Hsys & _ & Huser).
  - discriminate.
  - reflexivity.
  - split; [exact Hsys | exact Huser].
Defined.
